(** * BrowserUseDP: the agent control loop and its call-repetition guard

    A shallow embedding of the parts of [browser_automation.py] and
    [browser_control_agent.py] that decide the behaviour of the control
    loop: the [FunctionCallTracker] decorator, the executor's dispatch
    table and parameter validation, the transition functions of the five
    flow nodes and the wiring between them.

    Conventions.
    - Python [str] values are byte strings holding UTF-8 text.
    - [time.time()] readings are rationals (seconds); the rounding of
      floating point arithmetic is not modelled.
    - Everything outside the two source files (the page driver, the
      language model, the YAML parser, the clock) is an abstract world
      [W] acted on by functions that are parameters of the development. *)

From stdpp Require Import gmap strings list pretty.
From Stdlib Require Import QArith.

Local Open Scope string_scope.
Local Open Scope Z_scope.
Local Open Scope list_scope.

(** ** Part I: [browser_automation.py], the repetition guard *)

Module Tracker.

Section Guard.
(** [A] is the type of positional argument tuples and [K] that of keyword
    dictionaries; Python compares both with [==]. *)
Context {A K : Type} `{!EqDecision A, !EqDecision K}.

(** [@dataclass class FunctionCall] *)
Record FunctionCall := mkCall {
  func_name : string;
  args : A;
  kwargs : K;
  timestamp : Q
}.

(** [class FunctionCallTracker]: [call_history] is the deque (oldest
    record first), [max_history] its [maxlen]. *)
Record FunctionCallTracker := mkTracker {
  call_history : list FunctionCall;
  max_history : nat;
  threshold_ms : Z;
  max_repeats : Z
}.

(** [FunctionCallTracker(max_history=15, threshold_ms=30000, max_repeats=3)] *)
Definition new_tracker : FunctionCallTracker :=
  {| call_history := []; max_history := 15; threshold_ms := 30000;
     max_repeats := 3 |}.

(** [time_diff = (current_call.timestamp - prev_call.timestamp) * 1000] *)
Definition time_diff (current_call prev_call : FunctionCall) : Q :=
  ((timestamp current_call - timestamp prev_call) * inject_Z 1000)%Q.

(** [time_diff > self.threshold_ms] *)
Definition too_old (threshold : Z) (current_call prev_call : FunctionCall) : bool :=
  negb (Qle_bool (time_diff current_call prev_call) (inject_Z threshold)).

(** [prev_call.func_name == current_call.func_name and
     prev_call.args == current_call.args and
     prev_call.kwargs == current_call.kwargs] *)
Definition same_call (prev_call current_call : FunctionCall) : bool :=
  bool_decide (func_name prev_call = func_name current_call)
  && bool_decide (args prev_call = args current_call)
  && bool_decide (kwargs prev_call = kwargs current_call).

(** The body of [for prev_call in reversed(self.call_history)], on the
    records still to visit (most recent first); both [break]s end the
    count. *)
Fixpoint count_loop (threshold : Z) (current_call : FunctionCall)
    (newest_first : list FunctionCall) : nat :=
  match newest_first with
  | [] => 0%nat
  | prev_call :: older =>
      if too_old threshold current_call prev_call then 0%nat
      else if same_call prev_call current_call
           then S (count_loop threshold current_call older)
           else 0%nat
  end.

(** [FunctionCallTracker.count_recent_duplicates] *)
Definition count_recent_duplicates (self : FunctionCallTracker)
    (current_call : FunctionCall) : nat :=
  match call_history self with
  | [] => 0%nat
  | _ => count_loop (threshold_ms self) current_call (rev (call_history self))
  end.

(** [deque.append] on a deque with [maxlen]: the record goes to the right
    end and, when the bound is exceeded, the leftmost one is dropped. *)
Definition deque_append (maxlen : nat) (d : list FunctionCall)
    (x : FunctionCall) : list FunctionCall :=
  let d' := d ++ [x] in
  if (maxlen <? length d')%nat then tail d' else d'.

Definition record_call (self : FunctionCallTracker) (call : FunctionCall)
    : FunctionCallTracker :=
  {| call_history := deque_append (max_history self) (call_history self) call;
     max_history := max_history self;
     threshold_ms := threshold_ms self;
     max_repeats := max_repeats self |}.

(** *** Runs of identical calls *)

(** [earlier] is not older than the threshold when seen from [later]. *)
Definition within (threshold : Z) (later earlier : Q) : bool :=
  Qle_bool ((later - earlier) * inject_Z 1000)%Q (inject_Z threshold).

(** Every reading of the list is within the threshold of all later ones. *)
Fixpoint in_window (threshold : Z) (ts : list Q) : bool :=
  match ts with
  | [] => true
  | t :: later => forallb (fun t' => within threshold t' t) later
                  && in_window threshold later
  end.

(** The most recent record of [h], if there is one, is of another call. *)
Definition prior_differs (name : string) (a : A) (k : K)
    (h : list FunctionCall) : Prop :=
  forall p, last h = Some p ->
    ~ (func_name p = name /\ args p = a /\ kwargs p = k).

(** What a tracker holds after identical calls at the readings [ts],
    made on the tracker [self0]: its settings, and at the recent end of
    its history the records of the first [max_repeats] of them. *)
Definition holds_recorded (name : string) (self0 self : FunctionCallTracker)
    (a : A) (k : K) (ts : list Q) : Prop :=
  max_history self = max_history self0
  /\ threshold_ms self = threshold_ms self0
  /\ max_repeats self = max_repeats self0
  /\ exists pre,
       call_history self
       = pre ++ map (mkCall name a k) (take (Z.to_nat (max_repeats self0)) ts)
       /\ prior_differs name a k pre.

(** The values interpolated into [warning_msg]; the fixed text around
    them is not represented. *)
Record warning := mkWarning {
  w_func : string;
  w_threshold : Z;
  w_repeat_count : Z;
  w_args : A;
  w_kwargs : K
}.

(** How a call of the decorated function ends. [R] is the type of what
    the undecorated function returns, [E] that of what it raises. *)
Inductive call_result (R E : Type) : Type :=
  | Returned (r : R)                   (* [return func( *args, **kwargs )] *)
  | ReturnedWarning (m : warning)      (* [return warning_msg] *)
  | RaisedRepeatedCall (m : warning)   (* [raise RepeatedCallError(warning_msg)] *)
  | Propagated (e : E).                (* [func] raised; nothing catches it *)
Global Arguments Returned {R E} r.
Global Arguments ReturnedWarning {R E} m.
Global Arguments RaisedRepeatedCall {R E} m.
Global Arguments Propagated {R E} e.

Section Wrapper.
Context {W R E : Type}.
(** The decorated function: run on the arguments in a world, it returns
    or raises, and leaves a new world. *)
Variable func : A -> K -> W -> (R + E) * W.
Variable name : string.   (* [func.__name__] *)

(** [return func( *args, **kwargs )] *)
Definition pass_through (o : R + E) : call_result R E :=
  match o with inl r => Returned r | inr e => Propagated e end.

(** [func( *args, **kwargs ); return warning_msg] *)
Definition mask_with (m : warning) (o : R + E) : call_result R E :=
  match o with inl _ => ReturnedWarning m | inr e => Propagated e end.

(** [FunctionCallTracker.__call__.<locals>.wrapper]; [current_time] is
    what [time.time()] returned. *)
Definition wrapper (self : FunctionCallTracker) (current_time : Q)
    (a : A) (k : K) (w : W) : call_result R E * FunctionCallTracker * W :=
  let call := {| func_name := name; args := a; kwargs := k;
                 timestamp := current_time |} in
  let repeat_count := Z.of_nat (count_recent_duplicates self call) in
  let warning_msg := {| w_func := name; w_threshold := threshold_ms self;
                        w_repeat_count := repeat_count;
                        w_args := a; w_kwargs := k |} in
  if bool_decide (max_repeats self <= repeat_count) then
    (RaisedRepeatedCall warning_msg, self, w)
  else if bool_decide (repeat_count = max_repeats self - 1) then
    let self' := record_call self call in
    let '(o, w') := func a k w in
    (mask_with warning_msg o, self', w')
  else
    let self' := record_call self call in
    let '(o, w') := func a k w in
    (pass_through o, self', w').

(** Consecutive calls with the same arguments, one per clock reading. *)
Fixpoint call_repeatedly (self : FunctionCallTracker) (times : list Q)
    (a : A) (k : K) (w : W)
    : list (call_result R E) * FunctionCallTracker * W :=
  match times with
  | [] => ([], self, w)
  | current_time :: later =>
      let '(r, self1, w1) := wrapper self current_time a k w in
      let '(rs, self2, w2) := call_repeatedly self1 later a k w1 in
      (r :: rs, self2, w2)
  end.
End Wrapper.
End Guard.

Global Arguments FunctionCall : clear implicits.
Global Arguments FunctionCallTracker : clear implicits.
Global Arguments warning : clear implicits.
Global Arguments call_result : clear implicits.

End Tracker.

(** ** Part II: [browser_control_agent.py], the flow nodes *)

Module Agent.

(** *** Values *)

(** The values a plan carries as its action and as parameter values:
    the scalars, and YAML sequences and mappings, which are known by
    their [str] only. Python's [==] on them is structural equality. *)
Inductive pyval : Type :=
  | PNone
  | PInt (z : Z)
  | PStr (s : string)
  | PList (repr : string)
  | PDict (repr : string).

#[global] Instance pyval_eq_dec : EqDecision pyval.
Proof. solve_decision. Defined.

(** [str(v)], which is also what an f-string interpolates. *)
Definition str_of_pyval (v : pyval) : string :=
  match v with
  | PNone => "None"
  | PInt z => pretty z
  | PStr s => s
  | PList repr | PDict repr => repr
  end.

(** [None] when [hash(v)] returns, the [TypeError] when it raises: lists
    and dictionaries cannot be keys of a dictionary. *)
Definition hash_error (v : pyval) : option string :=
  match v with
  | PList _ => Some "unhashable type: 'list'"
  | PDict _ => Some "unhashable type: 'dict'"
  | _ => None
  end.

(** [needle in haystack] on [str]. *)
Fixpoint str_in (needle haystack : string) : bool :=
  String.prefix needle haystack
  || match haystack with
     | EmptyString => false
     | String _ rest => str_in needle rest
     end.

(** The value under [params] of a plan: a mapping, a bare string, or
    [None]. *)
Inductive params_value : Type :=
  | ParamsDict (d : gmap string pyval)
  | ParamsStr (s : string)
  | ParamsNone.

(** A plan [{action: ..., params: ...}]; [params = None] when the key is
    absent. *)
Record operation := mkOp {
  action : pyval;
  params : option params_value
}.

(** The methods of [BrowserAutomation] reachable from the dispatch table. *)
Inductive method : Type :=
  | click_element | click_to_upload | input_text | send_keys
  | scroll_down | scroll_up | go_to_url | go_back | open_tab
  | close_tab | switch_tab.

#[global] Instance method_eq_dec : EqDecision method.
Proof. solve_decision. Defined.

Definition method_name (m : method) : string :=
  match m with
  | click_element => "click_element" | click_to_upload => "click_to_upload"
  | input_text => "input_text" | send_keys => "send_keys"
  | scroll_down => "scroll_down" | scroll_up => "scroll_up"
  | go_to_url => "go_to_url" | go_back => "go_back" | open_tab => "open_tab"
  | close_tab => "close_tab" | switch_tab => "switch_tab"
  end.

(** Which method definitions carry [@FunctionCallTracker()] in
    [browser_automation.py]. *)
Definition decorated (m : method) : bool :=
  match m with
  | go_to_url | open_tab | close_tab | go_back
  | click_element | input_text | click_to_upload => true
  | switch_tab | scroll_down | scroll_up | send_keys => false
  end.

Abbreviation call_args := (list pyval).
Abbreviation call_kwargs := (gmap string pyval).
Abbreviation tracker := (Tracker.FunctionCallTracker (list pyval) (gmap string pyval)).
Abbreviation guard_warning := (Tracker.warning (list pyval) (gmap string pyval)).

(** Exceptions: those of the driver, the parser and the language-model
    client are known by class name and text; the guard's carries its
    warning. *)
Inductive exn : Type :=
  | Exn (cls : string) (text : string)
  | RepeatedCallError (m : guard_warning).

(** [type(e).__name__] *)
Definition exn_class (e : exn) : string :=
  match e with
  | Exn cls _ => cls
  | RepeatedCallError _ => "RepeatedCallError"
  end.

(** What a driver method returns. *)
Inductive drv_value : Type :=
  | DNone
  | DStr (s : string)
  | DBool (b : bool)
  | DObj (repr : string).

(** The [message] entry of an error dictionary, by the values its f-string
    interpolates. *)
Inductive message : Type :=
  | UnknownActionMsg (a : pyval)              (* "未知的操作类型: {action}" *)
  | ValidationMsg (e : exn)                   (* "参数验证失败: {str(e)}" *)
  | ExecFailedMsg (a : pyval) (e : exn).      (* "执行操作{action}失败: {str(e)}" *)

(** What [AsyncExecuteOperation.exec_async] returns: the driver method's
    value, the guard's warning string, or a dictionary with
    ["error": True]; [ctx] holds the [action] and [params] entries where
    the dictionary has them. *)
Inductive exec_result : Type :=
  | Value (v : drv_value)
  | WarningText (m : guard_warning)
  | ErrorDict (error_type : string) (msg : message)
              (ctx : option (pyval * params_value)).

(** [isinstance(exec_res, dict) and exec_res.get("error") is True] *)
Definition is_error (r : exec_result) : bool :=
  match r with ErrorDict _ _ _ => true | _ => false end.

(** An entry of [shared["operation_history"]]. *)
Record history_record := mkRecord {
  rec_operation : operation;
  rec_result : exec_result
}.

(** An entry of [safe_history]. *)
Record safe_record := mkSafe {
  safe_operation : operation;
  safe_result : string
}.

(** *** The dispatch table *)

Record op_config := mkConfig {
  cfg_method : method;
  required_params : list string;
  optional_params : list string;
  (** [None] when the lambda raises [AttributeError] because [params] has
      no [get]. *)
  args_map : params_value -> option (list pyval)
}.

(** [params.get(key, dflt)] inside an [args_map] lambda, on each key in
    turn. *)
Definition get_all (keys : list (string * pyval)) (p : params_value)
    : option (list pyval) :=
  match keys, p with
  | [], _ => Some []
  | _, ParamsDict d => Some (map (fun kd => default (snd kd) (d !! fst kd)) keys)
  | _, _ => None
  end.

Definition _operation_map : gmap string op_config :=
  list_to_map [
    ("click_element",
      mkConfig click_element ["xpath"] [] (get_all [("xpath", PNone)]));
    ("click_to_upload",
      mkConfig click_to_upload ["xpath"; "file_paths"] []
        (get_all [("xpath", PNone); ("file_paths", PNone)]));
    ("input_text",
      mkConfig input_text ["xpath"; "text"] []
        (get_all [("xpath", PNone); ("text", PNone)]));
    ("send_keys",
      mkConfig send_keys ["xpath"; "keys"] []
        (get_all [("xpath", PNone); ("keys", PNone)]));
    ("scroll_down",
      mkConfig scroll_down [] ["pixel"] (get_all [("pixel", PInt 300)]));
    ("scroll_up",
      mkConfig scroll_up [] ["pixel"] (get_all [("pixel", PInt 300)]));
    ("go_to_url", mkConfig go_to_url ["url"] [] (get_all [("url", PNone)]));
    ("go_back", mkConfig go_back [] [] (get_all []));
    ("open_tab", mkConfig open_tab ["url"] [] (get_all [("url", PNone)]));
    ("close_tab", mkConfig close_tab [] [] (get_all []));
    ("switch_tab",
      mkConfig switch_tab [] ["title"; "url"]
        (get_all [("title", PNone); ("url", PNone)]))
  ].

(** [action in self._operation_map] and [self._operation_map[action]],
    for an action that can be hashed *)
Definition lookup_action (a : pyval) : option op_config :=
  match a with
  | PStr s => _operation_map !! s
  | _ => None
  end.

(** [param not in params] *)
Definition param_missing (param : string) (p : params_value) : option bool :=
  match p with
  | ParamsDict d => Some (bool_decide (d !! param = None))
  | ParamsStr s => Some (negb (str_in param s))
  | ParamsNone => None   (* [TypeError]: [None] is not iterable *)
  end.

(** [AsyncExecuteOperation._validate_params_by_config]: [None] when it
    returns, the exception when it raises. *)
Fixpoint _validate_params_by_config (a : pyval) (p : params_value)
    (required : list string) : option exn :=
  match required with
  | [] => None
  | param :: rest =>
      match param_missing param p with
      | None => Some (Exn "TypeError" "argument of type 'NoneType' is not iterable")
      | Some true =>
          Some (Exn "ValueError" (str_of_pyval a
                                  +:+ "操作必须提供" +:+ param +:+ "参数"))
      | Some false => _validate_params_by_config a p rest
      end
  end.

(** The start of [exec_async]: [params = op.get("params", {})], then a
    bare string becomes [{"xpath": params}] for the four locator actions
    and [{}] otherwise. *)
Definition normalise_params (op : operation) : params_value :=
  match params op with
  | None => ParamsDict ∅
  | Some (ParamsStr s) =>
      if bool_decide (action op ∈ [PStr "click_element"; PStr "click_to_upload";
                                   PStr "input_text"; PStr "send_keys"])
      then ParamsDict {[ "xpath" := PStr s ]}
      else ParamsDict ∅
  | Some p => p
  end.

(** *** The browser object and the shared store *)

(** The state the module-level [browser] keeps between calls: one tracker
    per decorated method, created when the class body is evaluated. *)
Record browser_state := mkBrowser {
  trackers : method -> tracker
}.

Definition new_browser : browser_state :=
  {| trackers := fun _ => Tracker.new_tracker |}.

Definition set_tracker (m : method) (t : tracker) (b : browser_state)
    : browser_state :=
  {| trackers := fun m' => if bool_decide (m' = m) then t else trackers b m' |}.

Inductive node : Type :=
  | get_env_node | plan_node | execute_node | observe_node | finish_node.

#[global] Instance node_eq_dec : EqDecision node.
Proof. solve_decision. Defined.

(** The successors registered by [>>] and [- "action" >>] at the end of the
    module. *)
Definition successors (n : node) (act : string) : option node :=
  match n with
  | get_env_node => if bool_decide (act = "default") then Some plan_node else None
  | plan_node => if bool_decide (act = "default") then Some execute_node else None
  | execute_node =>
      if bool_decide (act = "success") then Some observe_node
      else if bool_decide (act = "error") then Some plan_node
      else if bool_decide (act = "retry") then Some execute_node
      else None
  | observe_node =>
      if bool_decide (act = "continue") then Some get_env_node
      else if bool_decide (act = "finish") then Some finish_node
      else None
  | finish_node => None
  end.

(** The flow's choice of the next node: [successors.get(action or "default")]. *)
Definition get_next_node (n : node) (act : option string) : option node :=
  successors n (match act with
                | None => "default"
                | Some a => if bool_decide (a = "") then "default" else a
                end).

Definition MAX_ITERATIONS_MESSAGE : string := "达到最大迭代次数，任务结束".

(** The data each prompt serialises with [yaml.dump] or [str]; the fixed
    instruction text, and in the planning prompt the remediation lines
    built from the previous result, are not represented. [Env] is the type
    of page snapshots. *)
Inductive prompt (Env : Type) : Type :=
  | PlanPrompt (task : string) (last_op : option operation)
      (op_result : option exec_result) (env : option Env)
      (operation_history : list safe_record)
  | CompletionPrompt (task : string) (history : list safe_record)
      (env : option Env)
  | SummaryPrompt (task : string) (history : list safe_record).
Arguments PlanPrompt {Env} task last_op op_result env operation_history.
Arguments CompletionPrompt {Env} task history env.
Arguments SummaryPrompt {Env} task history.

(** What one planning attempt makes of the model's reply: fence
    stripping, [yaml.safe_load], the [isinstance]/["action" in] test and
    the locator check against the page, which may rewrite the plan's
    xpath. *)
Inductive plan_reading : Type :=
  | GoodPlan (op : operation)   (* reaches [return parsed_plan] *)
  | BadFormat                   (* not a dict, or no ["action"] key *)
  | ReadingRaised (e : exn).    (* the parser or the page lookup raised *)

(** Everything the nodes call that lives outside the two modules, acting
    on a world [W]. *)
Class Externals (W Env : Type) := {
  (** [str.lower] *)
  lower : string -> string;
  (** [str(result)] on an execution result *)
  py_str : exec_result -> string;
  (** [time.time()] *)
  clock : W -> Q * W;
  (** [asyncio.sleep(seconds)] *)
  sleep : Z -> W -> W;
  (** the undecorated bodies of the [BrowserAutomation] methods *)
  page_method : method -> call_args -> W -> (drv_value + exn) * W;
  (** the four driver calls of [AsyncGetBrowserEnv.exec_async] and its
      one-second pause *)
  read_browser_env : W -> (Env + exn) * W;
  (** [call_llm] *)
  call_llm : prompt Env -> W -> (string + exn) * W;
  (** one attempt's parsing and checking of a reply *)
  read_plan : string -> W -> plan_reading * W
}.

Section Nodes.
Context {W Env : Type} `{!Externals W Env}.

(** [shared]: every key the nodes read or write; [None] is an absent
    key. [last_failed_operation] can also be present with value [None]. *)
Record shared := mkShared {
  task : option string;
  browser_env : option Env;
  planned_operation : option operation;
  operation_result : option exec_result;
  operation_history : option (list history_record);
  retry_count : option Z;
  last_failed_operation : option (option operation);
  iteration : option Z;
  final_message : option string
}.

Definition set_browser_env v s :=
  mkShared (task s) v (planned_operation s) (operation_result s)
    (operation_history s) (retry_count s) (last_failed_operation s)
    (iteration s) (final_message s).
Definition set_planned_operation v s :=
  mkShared (task s) (browser_env s) v (operation_result s)
    (operation_history s) (retry_count s) (last_failed_operation s)
    (iteration s) (final_message s).
Definition set_operation_result v s :=
  mkShared (task s) (browser_env s) (planned_operation s) v
    (operation_history s) (retry_count s) (last_failed_operation s)
    (iteration s) (final_message s).
Definition set_operation_history v s :=
  mkShared (task s) (browser_env s) (planned_operation s) (operation_result s)
    v (retry_count s) (last_failed_operation s)
    (iteration s) (final_message s).
Definition set_retry_count v s :=
  mkShared (task s) (browser_env s) (planned_operation s) (operation_result s)
    (operation_history s) v (last_failed_operation s)
    (iteration s) (final_message s).
Definition set_last_failed_operation v s :=
  mkShared (task s) (browser_env s) (planned_operation s) (operation_result s)
    (operation_history s) (retry_count s) v
    (iteration s) (final_message s).
Definition set_iteration v s :=
  mkShared (task s) (browser_env s) (planned_operation s) (operation_result s)
    (operation_history s) (retry_count s) (last_failed_operation s)
    v (final_message s).
Definition set_final_message v s :=
  mkShared (task s) (browser_env s) (planned_operation s) (operation_result s)
    (operation_history s) (retry_count s) (last_failed_operation s)
    (iteration s) v.

(** The [shared] dictionary [main] starts the flow with. *)
Definition initial_shared (the_task : string) : shared :=
  mkShared (Some the_task) None None None (Some []) None None None None.

(** *** Serialised history *)

(** One [safe_record] of the loops in [safe_data], in
    [AsyncObserveResult.exec_async] and in [AsyncFinishNode.exec_async];
    [str(None)] is ["None"] as well, so the conditional collapses. *)
Definition to_safe_record (r : history_record) : safe_record :=
  {| safe_operation := rec_operation r; safe_result := py_str (rec_result r) |}.

(** [xs[-n:]] for [n > 0] *)
Definition last_n {X} (n : nat) (xs : list X) : list X :=
  drop (length xs - n) xs.

(** The ["operation_history"] entry of [safe_data(data)]. *)
Definition safe_data_history (operation_history : list history_record)
    : list safe_record :=
  let safe_history := map to_safe_record operation_history in
  if (5 <? length safe_history)%nat then last_n 5 safe_history
  else safe_history.

(** *** AsyncGetBrowserEnv *)

Definition get_env_run (s : shared) (w : W) : (option string + exn) * shared * W :=
  match read_browser_env w with
  | (inl env, w') => (inl (Some "default"), set_browser_env (Some env) s, w')
  | (inr e, w') => (inr e, s, w')
  end.

(** *** AsyncPlanOperation *)

(** The plan returned when every attempt failed. *)
Definition default_plan : operation :=
  {| action := PStr "scroll_down";
     params := Some (ParamsDict {[ "pixel" := PInt 300 ]}) |}.

Definition max_retries : nat := 3.

(** The [for attempt in range(max_retries)] loop of
    [AsyncPlanOperation.exec_async]; [remaining] counts the iterations
    still to run, [attempt] is the loop variable. *)
Fixpoint plan_attempts (remaining attempt : nat) (p : prompt Env) (w : W)
    : operation * W :=
  match remaining with
  | O => (default_plan, w)       (* the [return] after the loop *)
  | S remaining' =>
      let on_exception w1 :=
        if (attempt <? max_retries - 1)%nat
        then plan_attempts remaining' (S attempt) p (sleep 1 w1)
        else (default_plan, w1) in
      match call_llm p w with
      | (inr _, w1) => on_exception w1
      | (inl plan_yaml, w1) =>
          match read_plan plan_yaml w1 with
          | (GoodPlan parsed_plan, w2) => (parsed_plan, w2)
          | (BadFormat, w2) =>
              if (attempt <? max_retries - 1)%nat
              then plan_attempts remaining' (S attempt) p w2   (* [continue] *)
              else on_exception w2                             (* [raise ValueError] *)
          | (ReadingRaised _, w2) => on_exception w2
          end
      end
  end.

(** [prep_async] followed by the prompt construction of [exec_async]:
    [None] when the task is missing or empty. *)
Definition plan_prompt (s : shared) : option (prompt Env) :=
  match task s with
  | None => None
  | Some t =>
      if bool_decide (t = "") then None
      else Some (PlanPrompt t (planned_operation s) (operation_result s)
                   (browser_env s)
                   (safe_data_history (default [] (operation_history s))))
  end.

Definition plan_run (s : shared) (w : W) : (option string + exn) * shared * W :=
  match plan_prompt s with
  | None => (inr (Exn "Exception" "任务信息缺失，请提供有效的 task"), s, w)
  | Some p =>
      let '(exec_res, w') := plan_attempts max_retries 0 p w in
      (inl (Some "default"), set_planned_operation (Some exec_res) s, w')
  end.

(** *** AsyncExecuteOperation *)

(** A driver method's own outcome, seen by the executor. *)
Definition as_result (o : drv_value + exn) : exec_result + exn :=
  match o with inl v => inl (Value v) | inr e => inr e end.

(** [getattr(browser, method_name)( *args )]: a decorated method runs
    inside its tracker's [wrapper], an undecorated one directly. *)
Definition browser_method (m : method) (a : call_args) (b : browser_state)
    (w : W) : (exec_result + exn) * browser_state * W :=
  if decorated m then
    let '(current_time, w0) := clock w in
    let '(r, t', w') :=
      Tracker.wrapper (fun a' (_ : call_kwargs) => page_method m a')
        (method_name m) (trackers b m) current_time a ∅ w0 in
    (match r with
     | Tracker.Returned v => inl (Value v)
     | Tracker.ReturnedWarning msg => inl (WarningText msg)
     | Tracker.RaisedRepeatedCall msg => inr (RepeatedCallError msg)
     | Tracker.Propagated e => inr e
     end, set_tracker m t' b, w')
  else
    let '(o, w') := page_method m a w in
    (as_result o, b, w').

(** [AsyncExecuteOperation.exec_async] from the point where the test
    [action not in self._operation_map] has returned. *)
Definition exec_async_body (op : operation) (b : browser_state) (w : W)
    : exec_result * browser_state * W :=
  let a := action op in
  let p := normalise_params op in
  match lookup_action a with
  | None => (ErrorDict "unknown_action" (UnknownActionMsg a) None, b, w)
  | Some op_config =>
      match _validate_params_by_config a p (required_params op_config) with
      | Some e => (ErrorDict "parameter_validation" (ValidationMsg e) None, b, w)
      | None =>
          let failed e := ErrorDict (exn_class e) (ExecFailedMsg a e) (Some (a, p)) in
          match args_map op_config p with
          | None =>
              (failed (Exn "AttributeError" "'NoneType' object has no attribute 'get'"),
             b, w)
          | Some call_arguments =>
              match browser_method (cfg_method op_config) call_arguments b w with
              | (inl result, b', w') => (result, b', w')
              | (inr e, b', w') => (failed e, b', w')
              end
          end
      end
  end.

(** [AsyncExecuteOperation.exec_async]. The membership test hashes the
    action outside every [try]: for a list or a dictionary it raises
    [TypeError], which leaves the method. *)
Definition exec_async (op : operation) (b : browser_state) (w : W)
    : (exec_result + exn) * browser_state * W :=
  match hash_error (action op) with
  | Some text => (inr (Exn "TypeError" text), b, w)
  | None =>
      let '(exec_res, b', w') := exec_async_body op b w in
      (inl exec_res, b', w')
  end.

(** [AsyncExecuteOperation.prep_async]: the plan to execute, and the two
    keys it initialises. *)
Definition execute_prep_async (s : shared) : (operation + exn) * shared :=
  match planned_operation s with
  | None => (inr (Exn "Exception" "执行节点未收到有效的操作计划"), s)
  | Some op =>
      let s1 := match retry_count s with
                | None => set_retry_count (Some 0) s
                | Some _ => s
                end in
      let s2 := match last_failed_operation s1 with
                | None => set_last_failed_operation (Some None) s1
                | Some _ => s1
                end in
      (inl op, s2)
  end.

(** [error_type in ["ConnectionError", "TimeoutError", "NetworkError"]] *)
Definition transient (error_type : string) : bool :=
  bool_decide (error_type ∈ ["ConnectionError"; "TimeoutError"; "NetworkError"]).

(** [exec_res.get("error_type", "")] *)
Definition error_type_of (r : exec_result) : string :=
  match r with ErrorDict t _ _ => t | _ => "" end.

(** The rewrite of a bare-string [params] before the record is built; it
    assigns into the dictionary that [shared["planned_operation"]] also
    refers to. *)
Definition record_format (prep_res : operation) : operation :=
  match params prep_res with
  | Some (ParamsStr s) =>
      if bool_decide (action prep_res ∈ [PStr "click_element"; PStr "input_text";
                                         PStr "send_keys"])
      then {| action := action prep_res;
              params := Some (ParamsDict {[ "xpath" := PStr s ]}) |}
      else prep_res
  | _ => prep_res
  end.

(** [AsyncExecuteOperation.post_async] *)
Definition execute_post_async (s : shared) (prep_res : operation)
    (exec_res : exec_result) (w : W) : string * shared * W :=
  let s := set_operation_result (Some exec_res) s in
  if is_error exec_res then
    let s := set_last_failed_operation (Some (Some prep_res)) s in
    let s := set_retry_count (Some (default 0 (retry_count s) + 1)) s in
    let error_type := error_type_of exec_res in
    if transient error_type && bool_decide (default 0 (retry_count s) <= 3)
    then ("retry", s, sleep 1 w)
    else ("error", s, w)
  else
    let s := set_retry_count (Some 0) s in
    let s := set_last_failed_operation (Some None) s in
    match operation_history s with
    | Some history =>
        let prep_res := record_format prep_res in
        let operation_record := {| rec_operation := prep_res;
                                   rec_result := exec_res |} in
        ("success",
         set_operation_history (Some (history ++ [operation_record]))
           (set_planned_operation (Some prep_res) s), w)
    | None => ("success", s, w)
    end.

Definition execute_run (s : shared) (b : browser_state) (w : W)
    : (option string + exn) * shared * browser_state * W :=
  match execute_prep_async s with
  | (inr e, s1) => (inr e, s1, b, w)
  | (inl op, s1) =>
      match exec_async op b w with
      | (inr e, b', w1) => (inr e, s1, b', w1)
      | (inl exec_res, b', w1) =>
          let '(act, s2, w2) := execute_post_async s1 op exec_res w1 in
          (inl (Some act), s2, b', w2)
      end
  end.

(** *** AsyncObserveResult *)

(** What [AsyncObserveResult.exec_async] returns. *)
Record observation := mkObservation {
  completion_result : option string;
  obs_iteration : option Z
}.

(** [AsyncObserveResult.prep_async] *)
Definition observe_prep_async (s : shared)
    : (string * list history_record * option Env * Z) * shared :=
  let iteration' := default 0 (iteration s) + 1 in
  let s := set_iteration (Some iteration') s in
  ((default "" (task s), default [] (operation_history s), browser_env s,
    iteration'), s).

(** The history serialised into the judgement prompt: [safe_history] as
    the loop builds it, passed whole to [yaml.dump]. *)
Definition observer_history (operation_history : list history_record)
    : list safe_record :=
  map to_safe_record operation_history.

(** [AsyncObserveResult.exec_async] *)
Definition observe_exec_async
    (prep_res : string * list history_record * option Env * Z) (w : W)
    : (observation + exn) * W :=
  let '(task, operation_history, browser_env, iteration) := prep_res in
  match operation_history with
  | [] => (inl (mkObservation None (Some iteration)), w)
  | _ =>
      let completion_prompt :=
        CompletionPrompt task (observer_history operation_history) browser_env in
      match call_llm completion_prompt w with
      | (inl answer, w') => (inl (mkObservation (Some answer) (Some iteration)), w')
      | (inr e, w') => (inr e, w')
      end
  end.

(** [completion_result and ("是" in completion_result.lower() or
     "完成" in completion_result.lower())] *)
Definition affirms (completion_result : option string) : bool :=
  match completion_result with
  | None => false
  | Some answer =>
      negb (bool_decide (answer = ""))
      && (str_in "是" (lower answer) || str_in "完成" (lower answer))
  end.

(** [iteration is not None and iteration >= 30] *)
Definition cap_reached (iteration : option Z) : bool :=
  match iteration with
  | None => false
  | Some i => bool_decide (30 <= i)
  end.

(** [AsyncObserveResult.post_async] *)
Definition observe_post_async (s : shared) (exec_res : option observation)
    : string * shared :=
  match exec_res with
  | None =>
      if cap_reached (iteration s)
      then ("finish", set_final_message (Some MAX_ITERATIONS_MESSAGE) s)
      else ("continue", s)
  | Some res =>
      if affirms (completion_result res) then
        ("finish",
         set_final_message
           (Some ("任务已完成：" +:+ default "" (completion_result res))) s)
      else if cap_reached (obs_iteration res)
      then ("finish", set_final_message (Some MAX_ITERATIONS_MESSAGE) s)
      else ("continue", s)
  end.

Definition observe_run (s : shared) (w : W)
    : (option string + exn) * shared * W :=
  let '(prep_res, s1) := observe_prep_async s in
  match observe_exec_async prep_res w with
  | (inr e, w') => (inr e, s1, w')
  | (inl exec_res, w') =>
      let '(act, s2) := observe_post_async s1 (Some exec_res) in
      (inl (Some act), s2, w')
  end.

(** *** AsyncFinishNode *)

(** [AsyncFinishNode.exec_async] *)
Definition finish_exec_async (task : string)
    (operation_history : list history_record) (w : W) : string * W :=
  match operation_history with
  | [] => ("任务已完成", w)
  | _ =>
      let safe_history := map to_safe_record operation_history in
      match call_llm (SummaryPrompt task (last_n 5 safe_history)) w with
      | (inl summary, w') => (summary, w')
      | (inr _, w') => ("任务已完成，但无法生成详细总结", w')
      end
  end.

Definition finish_run (s : shared) (w : W)
    : (option string + exn) * shared * W :=
  let '(exec_res, w') :=
    finish_exec_async (default "" (task s)) (default [] (operation_history s)) w in
  (inl None, set_final_message (Some exec_res) s, w').

(** *** The flow *)

Inductive status : Type :=
  | Running (n : node)
  | Ended                 (* no successor: the flow's loop is over *)
  | Crashed (e : exn).    (* an exception left a node *)

Record flow_state := mkFlow {
  curr : status;
  store : shared;
  browser : browser_state;
  world : W
}.

(** One node's [prep_async], [exec_async] and [post_async]. *)
Definition run_node (n : node) (st : flow_state)
    : (option string + exn) * shared * browser_state * W :=
  let s := store st in
  let b := browser st in
  let w := world st in
  match n with
  | get_env_node => let '(r, s', w') := get_env_run s w in (r, s', b, w')
  | plan_node => let '(r, s', w') := plan_run s w in (r, s', b, w')
  | execute_node => execute_run s b w
  | observe_node => let '(r, s', w') := observe_run s w in (r, s', b, w')
  | finish_node => let '(r, s', w') := finish_run s w in (r, s', b, w')
  end.

(** One turn of the orchestration loop: run the current node and move
    to the successor registered for the action it returned. *)
Definition step (st : flow_state) : flow_state :=
  match curr st with
  | Running n =>
      match run_node n st with
      | (inl act, s', b', w') =>
          mkFlow (match get_next_node n act with
                  | Some n' => Running n'
                  | None => Ended
                  end) s' b' w'
      | (inr e, s', b', w') => mkFlow (Crashed e) s' b' w'
      end
  | _ => st
  end.

Fixpoint run (fuel : nat) (st : flow_state) : flow_state :=
  match fuel with
  | O => st
  | S fuel' => run fuel' (step st)
  end.

(** The node run in one turn and the action it returned; nothing when the
    flow is over or the node raised. *)
Definition event (st : flow_state) : list (node * string) :=
  match curr st with
  | Running n =>
      match run_node n st with
      | (inl act, _, _, _) => [(n, default "" act)]
      | (inr _, _, _, _) => []
      end
  | _ => []
  end.

(** The events of the first [fuel] turns. *)
Fixpoint trace (fuel : nat) (st : flow_state) : list (node * string) :=
  match fuel with
  | O => []
  | S fuel' => event st ++ trace fuel' (step st)
  end.

(** How many times [execute_node] returned ["success"]. *)
Definition successes (events : list (node * string)) : nat :=
  length (filter (fun e => e = (execute_node, "success")) events).

(** The iterations counted so far: [shared.get("iteration", 0)]. *)
Definition iterations (s : shared) : Z := default 0 (iteration s).

(** The bound the iteration counter keeps, by the node the flow is at:
    below 30 until the observer has finished, at most 30 from then on. *)
Definition within_cap (st : flow_state) : Prop :=
  match curr st with
  | Running finish_node | Ended | Crashed _ => iterations (store st) <= 30
  | Running _ => iterations (store st) < 30
  end.

(** How many times [execute_node] returned ["error"] or ["retry"]. *)
Definition failures (events : list (node * string)) : nat :=
  length (filter (fun e => e.1 = execute_node /\ e.2 <> "success") events).

(** The turns the flow still takes from a state at most, when no
    execution fails from there on: four for each round left below the
    cap, and one for the finish node. *)
Definition turns_left (st : flow_state) : Z :=
  let rounds := 30 - iterations (store st) in
  match curr st with
  | Running get_env_node => 4 * rounds + 1
  | Running plan_node => 4 * rounds
  | Running execute_node => 4 * rounds - 1
  | Running observe_node => 4 * rounds - 2
  | Running finish_node => 1
  | Ended | Crashed _ => 0
  end.

(** [browser_agent.run_async(shared)] from [main]'s initial store, with
    [get_env_node] as start node. *)
Definition initial_state (the_task : string) (w : W) : flow_state :=
  mkFlow (Running get_env_node) (initial_shared the_task) new_browser w.

(** [BrowserAgent.post_async], which the flow calls once its loop is
    over; the flow passes no execution result. *)
Definition BrowserAgent_post_async (s : shared) (exec_res : option observation)
    : string * shared :=
  match exec_res with
  | None =>
      if cap_reached (iteration s) then ("finish", s) else ("continue", s)
  | Some res =>
      if affirms (completion_result res) then
        ("finish",
         set_final_message
           (Some ("任务已完成：" +:+ default "" (completion_result res))) s)
      else if cap_reached (obs_iteration res)
      then ("finish", set_final_message (Some MAX_ITERATIONS_MESSAGE) s)
      else ("continue", s)
  end.

(** The successor of [execute_node] for the action [execute_post_async]
    returns, by the retry count it found and the execution result. *)
Definition execute_target (retries : Z) (exec_res : exec_result) : node :=
  if is_error exec_res then
    if transient (error_type_of exec_res) && bool_decide (retries + 1 <= 3)
    then execute_node else plan_node
  else observe_node.

(** *** Repeated invocations and assumptions on the world *)

(** [n] calls in a row of one browser method with the same arguments. *)
Fixpoint invoke_repeatedly (m : method) (a : call_args) (n : nat)
    (b : browser_state) (w : W)
    : list (exec_result + exn) * browser_state * W :=
  match n with
  | O => ([], b, w)
  | S n' =>
      let '(r, b1, w1) := browser_method m a b w in
      let '(rs, b2, w2) := invoke_repeatedly m a n' b1 w1 in
      (r :: rs, b2, w2)
  end.

(** The same calls made on the undecorated method body. *)
Fixpoint page_repeatedly (m : method) (a : call_args) (n : nat) (w : W)
    : list (drv_value + exn) * W :=
  match n with
  | O => ([], w)
  | S n' =>
      let '(o, w1) := page_method m a w in
      let '(os, w2) := page_repeatedly m a n' w1 in
      (o :: os, w2)
  end.

(** The page can always be read. *)
Definition snapshot_succeeds : Prop :=
  forall w, exists env w', read_browser_env w = (inl env, w').

(** No reply of the model can be read as a plan. *)
Definition plans_unreadable : Prop :=
  forall reply w op, (read_plan reply w).1 <> GoodPlan op.

(** The page never fails to scroll down. *)
Definition scrolling_succeeds : Prop :=
  forall a w, exists v w', page_method scroll_down a w = (inl v, w').

(** The model answers every completion question, never with a text
    that [affirms]. *)
Definition oracle_never_affirms : Prop :=
  forall task history env w, exists answer w',
    call_llm (CompletionPrompt task history env) w = (inl answer, w')
    /\ affirms (Some answer) = false.

(** An execution returned an error dictionary. *)
Definition failed (outcome : exec_result + exn) : bool :=
  match outcome with inl exec_res => is_error exec_res | inr _ => false end.

End Nodes.
End Agent.

(** ** Part III: worlds and runs used as examples *)

Module Scenario.
Import Agent.

(** [str.lower] restricted to the ASCII letters; every other byte, and so
    every CJK character, is left as it is. *)
Definition ascii_lower_char (c : Ascii.ascii) : Ascii.ascii :=
  let n := Ascii.N_of_ascii c in
  if ((65 <=? n) && (n <=? 90))%N then Ascii.ascii_of_N (n + 32) else c.

Fixpoint ascii_lower (s : string) : string :=
  match s with
  | EmptyString => EmptyString
  | String c rest => String (ascii_lower_char c) (ascii_lower rest)
  end.

(** A world in which the page never fails, the model answers "否" to every
    prompt and no reply can be read as a plan. The world is the number of
    driver calls made so far, which is also what the clock shows. *)
#[local] Instance quiet_world : Externals nat unit := {|
  lower := ascii_lower;
  py_str := fun _ => "result";
  clock := fun w => (inject_Z (Z.of_nat w), w);
  sleep := fun _ w => w;
  page_method := fun _ _ w => (inl DNone, S w);
  read_browser_env := fun w => (inl tt, w);
  call_llm := fun _ w => (inl "否", w);
  read_plan := fun _ w => (BadFormat, w)
|}.

(** [not v] *)
Definition falsy (v : pyval) : bool :=
  match v with
  | PNone => true
  | PInt z => bool_decide (z = 0)
  | PStr s => bool_decide (s = "")
  | PList repr => bool_decide (repr = "[]")
  | PDict repr => bool_decide (repr = "{}")
  end.

(** What the method bodies make of a page on which every driver call
    raises [e]. [send_keys] catches every exception and returns [None];
    [click_element] and [input_text] catch it and return a text that
    starts with ["error: "]; [click_to_upload] looks its element up with
    [find_element], which catches the exception, and returns a text;
    [go_to_url] and [switch_tab] test their arguments before they touch
    the page; the other bodies let the exception out. An xpath that is
    not a string makes [_clean_xpath] raise before the page is touched:
    in [click_element] and [input_text] the handler then fails on its
    unbound [cleaned_xpath]. The texts are cut short. *)
Definition on_failing_page (e : exn) (m : method) (a : call_args)
    : drv_value + exn :=
  match m with
  | send_keys => inl DNone
  | click_element | input_text =>
      match a with
      | PStr _ :: _ => inl (DStr "error: ")
      | _ => inr (Exn "UnboundLocalError" "cleaned_xpath")
      end
  | click_to_upload =>
      match a with
      | PStr _ :: _ => inl (DStr "未找到元素: ")
      | _ => inr (Exn "AttributeError" "object has no attribute 'replace'")
      end
  | switch_tab =>
      if forallb falsy a then inr (Exn "ValueError" "必须提供title或url参数")
      else inr e
  | go_to_url =>
      match a with
      | PStr url :: _ =>
          if String.prefix "http://" url || String.prefix "https://" url
          then inr e
          else inr (Exn "ValueError" "URL必须以http://或https://开头")
      | _ => inr (Exn "AttributeError" "object has no attribute 'startswith'")
      end
  | _ => inr e
  end.

(** The same world with a page that has gone away: every driver call
    raises. *)
#[local] Instance broken_page_world : Externals nat unit := {|
  lower := ascii_lower;
  py_str := fun _ => "result";
  clock := fun w => (inject_Z (Z.of_nat w), w);
  sleep := fun _ w => w;
  page_method := fun m a w =>
    (on_failing_page (Exn "PageDisconnectedError" "disconnected") m a, S w);
  read_browser_env := fun w => (inl tt, w);
  call_llm := fun _ w => (inl "否", w);
  read_plan := fun _ w => (BadFormat, w)
|}.

(** The states of a run that goes round between snapshot, planner and
    executor with the fallback plan. *)
Definition replanning (st : @flow_state nat unit) : Prop :=
  task (store st) = Some "task"
  /\ (curr st = Running get_env_node
      \/ curr st = Running plan_node
      \/ curr st = Running execute_node
         /\ planned_operation (store st) = Some default_plan).

(** A world whose page times out on every driver call, and whose model
    plans an unknown action three times and [go_to_url] from then on. The
    world is the number of replies read so far. *)
Definition hover_plan : operation :=
  {| action := PStr "hover"; params := Some (ParamsDict ∅) |}.



(** The number of history entries a prompt serialises. *)
Definition entries {Env} (p : prompt Env) : nat :=
  match p with
  | PlanPrompt _ _ _ _ h => length h
  | CompletionPrompt _ h _ => length h
  | SummaryPrompt _ h => length h
  end.

(** A world that keeps, for every prompt sent to the model, the number of
    history entries in it. *)
#[local] Instance prompt_log_world : Externals (list nat) unit := {|
  lower := ascii_lower;
  py_str := fun _ => "result";
  clock := fun w => (0%Q, w);
  sleep := fun _ w => w;
  page_method := fun _ _ w => (inl DNone, w);
  read_browser_env := fun w => (inl tt, w);
  call_llm := fun p w => (inl "否", w ++ [entries p]);
  read_plan := fun _ w => (GoodPlan default_plan, w)
|}.

(** A tracker as the decorators create it, around a function that counts
    its executions and returns that count. *)
Definition counting_func (a : list pyval) (k : gmap string pyval) (w : nat)
    : (nat + exn) * nat := (inl w, S w).

Definition click_args : list pyval := [PStr "//button"].

(** Four calls one second apart. *)
Definition four_calls :=
  Tracker.call_repeatedly counting_func "click_element" Tracker.new_tracker
    [0%Q; 1%Q; 2%Q; 3%Q] click_args ∅ 0%nat.

(** The policy in the words of the specification, on the outcomes of a
    run of identical calls: [M - 2] ordinary passes, then one warning,
    then [RepeatedCallError] from call number [M] on. *)
Definition policy_as_stated {R : Type} (M : nat)
    (outcomes : list (Tracker.call_result (list pyval) (gmap string pyval) R exn))
    : Prop :=
  (forall i, (i < M - 2)%nat -> exists r, outcomes !! i = Some (Tracker.Returned r))
  /\ (exists m, outcomes !! (M - 2)%nat = Some (Tracker.ReturnedWarning m))
  /\ (forall i, (M - 1 <= i < length outcomes)%nat ->
        exists m, outcomes !! i = Some (Tracker.RaisedRepeatedCall m)).

(** [{action: "input_text", params: {xpath: "//input"}}] *)
Definition input_without_text : operation :=
  {| action := PStr "input_text";
     params := Some (ParamsDict {[ "xpath" := PStr "//input" ]}) |}.

Definition a_record (outcome : string) : history_record :=
  {| rec_operation := default_plan; rec_result := Value (DStr outcome) |}.

(** A history of six records. *)
Definition six_records : list history_record := map a_record ["r1"; "r2"; "r3"; "r4"; "r5"; "r6"].

(** The browser object after three identical clicks in the quiet world,
    which has by then counted three driver calls. *)
Definition after_three_clicks : browser_state :=
  (@invoke_repeatedly _ _ quiet_world click_element click_args 3 new_browser 0%nat).1.2.

(** A store holding six history records, as a run has it after six
    successful actions. *)
Definition store_with_six : @shared unit :=
  set_iteration (Some 6)
    (set_operation_history (Some six_records) (initial_shared "task")).

End Scenario.

(** ** Part IV: further functions of the two modules *)

Module More.
Import Agent.
Import Stdlib.Strings.Ascii.

(** *** String operations *)

(** [s.replace(old, new)] for a non-empty [old]: occurrences are found
    from the left and do not overlap. [skip] counts the characters of the
    occurrence just replaced that are still to be passed over. *)
Fixpoint replace_from (old new : string) (skip : nat) (s : string) : string :=
  match s with
  | EmptyString => EmptyString
  | String c rest =>
      match skip with
      | S skip' => replace_from old new skip' rest
      | O =>
          if String.prefix old s
          then new +:+ replace_from old new (String.length old - 1) rest
          else String c (replace_from old new 0 rest)
      end
  end.

Definition replace (old new s : string) : string := replace_from old new 0 s.

(** [s.lstrip(c)] for a single character [c] *)
Fixpoint lstrip (c : Ascii.ascii) (s : string) : string :=
  match s with
  | EmptyString => EmptyString
  | String c' rest => if bool_decide (c' = c) then lstrip c rest else s
  end.

(** [clean_xpath] of [browser_control_agent.py], which is also
    [BrowserAutomation._clean_xpath]: the two bodies are the same. *)
Definition clean_xpath (xpath : string) : string :=
  let cleaned := replace "\'" "'" xpath in
  if String.prefix "xpath://" cleaned then cleaned
  else "xpath://" +:+ lstrip "/"%char cleaned.

(** The rewriting the planner tries when a locator finds nothing:
    [ele_xpath.replace('=', 'contains(., ').replace(']', ')]')]. *)
Definition relax_xpath (ele_xpath : string) : string :=
  replace "]" ")]" (replace "=" "contains(., " ele_xpath).

(** [parsed_plan["params"]["xpath"] = modified_xpath] *)
Definition with_xpath (modified_xpath : string) (parsed_plan : operation)
    : operation :=
  match params parsed_plan with
  | Some (ParamsDict d) =>
      {| action := action parsed_plan;
         params := Some (ParamsDict (<[ "xpath" := PStr modified_xpath ]> d)) |}
  | _ => parsed_plan
  end.

Section Locator.
Context {W : Type}.
(** [len(browser.page.latest_tab.eles(locator))] *)
Variable count_eles : string -> W -> (nat + exn) * W.

(** The locator check of [AsyncPlanOperation.exec_async], from
    [if "xpath" in parsed_plan.get("params", {})] to [return parsed_plan]:
    the plan the attempt returns, or the exception that ends the attempt. *)
Definition check_locator (parsed_plan : operation) (w : W)
    : (operation + exn) * W :=
  match params parsed_plan with
  | None => (inl parsed_plan, w)
  | Some ParamsNone =>
      (inr (Exn "TypeError" "argument of type 'NoneType' is not iterable"), w)
  | Some (ParamsStr s) =>
      if str_in "xpath" s
      then (inr (Exn "TypeError" "string indices must be integers, not 'str'"), w)
      else (inl parsed_plan, w)
  | Some (ParamsDict d) =>
      match d !! "xpath" with
      | None => (inl parsed_plan, w)
      | Some (PStr ele_xpath) =>
          match count_eles (clean_xpath ele_xpath) w with
          | (inr e, w1) => (inr e, w1)
          | (inl n, w1) =>
              if (n =? 0)%nat then
                let modified_xpath := relax_xpath ele_xpath in
                match count_eles (clean_xpath modified_xpath) w1 with
                | (inr e, w2) => (inr e, w2)
                | (inl n', w2) =>
                    if (n' =? 1)%nat
                    then (inl (with_xpath modified_xpath parsed_plan), w2)
                    else (inl parsed_plan, w2)
                end
              else (inl parsed_plan, w1)
          end
      | Some PNone =>
          (inr (Exn "AttributeError" "'NoneType' object has no attribute 'replace'"), w)
      | Some (PInt _) =>
          (inr (Exn "AttributeError" "'int' object has no attribute 'replace'"), w)
      | Some (PList _) =>
          (inr (Exn "AttributeError" "'list' object has no attribute 'replace'"), w)
      | Some (PDict _) =>
          (inr (Exn "AttributeError" "'dict' object has no attribute 'replace'"), w)
      end
  end.
End Locator.

(** *** The earlier parameter validation *)

(** One [if ... and key not in params: raise ValueError(text)] of
    [_validate_params], followed by the rest of the method. *)
Definition require (applies : bool) (key text : string) (p : params_value)
    (rest : option exn) : option exn :=
  if applies then
    match param_missing key p with
    | None => Some (Exn "TypeError" "argument of type 'NoneType' is not iterable")
    | Some true => Some (Exn "ValueError" text)
    | Some false => rest
    end
  else rest.

(** [AsyncExecuteOperation._validate_params]: [None] when it returns. *)
Definition _validate_params (a : pyval) (p : params_value) : option exn :=
  require (bool_decide (a ∈ [PStr "click_element"; PStr "input_text"; PStr "send_keys"]))
    "xpath" (str_of_pyval a +:+ "操作必须提供xpath参数") p
  (require (bool_decide (a = PStr "input_text"))
     "text" "input_text操作必须提供text参数" p
  (require (bool_decide (a = PStr "send_keys"))
     "keys" "send_keys操作必须提供keys参数" p
  (require (bool_decide (a ∈ [PStr "go_to_url"; PStr "open_tab"]))
     "url" (str_of_pyval a +:+ "操作必须提供url参数") p
   None))).

(** *** Calls of one decorated function with changing arguments *)

Section Calls.
Context {A K : Type} `{!EqDecision A, !EqDecision K} {W R E : Type}.
Variable func : A -> K -> W -> (R + E) * W.
Variable name : string.

(** The calls, each with the clock reading it is made at, one after the
    other on the same tracker. *)
Fixpoint call_each (self : Tracker.FunctionCallTracker A K)
    (calls : list (Q * A * K)) (w : W)
    : list (Tracker.call_result A K R E) * Tracker.FunctionCallTracker A K * W :=
  match calls with
  | [] => ([], self, w)
  | (current_time, a, k) :: later =>
      let '(r, self1, w1) := Tracker.wrapper func name self current_time a k w in
      let '(rs, self2, w2) := call_each self1 later w1 in
      (r :: rs, self2, w2)
  end.
End Calls.

(** The guard stepped in: the caller got a warning or [RepeatedCallError]
    where the function's own outcome was due. *)
Definition interfered {A K R E : Type} (r : Tracker.call_result A K R E) : bool :=
  match r with
  | Tracker.ReturnedWarning _ | Tracker.RaisedRepeatedCall _ => true
  | _ => false
  end.

(** No two calls in a row have the same arguments. *)
Fixpoint alternating {A K : Type} (calls : list (Q * A * K)) : Prop :=
  match calls with
  | c1 :: ((c2 :: _) as later) =>
      ~ (c1.1.2 = c2.1.2 /\ c1.2 = c2.2) /\ alternating later
  | _ => True
  end.

(** *** Operations and browser states used as examples *)

(** [{action: "click_element", params: {xpath: "//button"}}] *)
Definition click_plan : operation :=
  {| action := PStr "click_element";
     params := Some (ParamsDict {[ "xpath" := PStr "//button" ]}) |}.

(** The store of a run that is about to execute [op] for the first
    time. *)
Definition about_to_execute (op : operation) : @shared unit :=
  set_planned_operation (Some op) (initial_shared "task").

(** The browser object after two identical clicks in the quiet world. *)
Definition after_two_clicks : browser_state :=
  (@invoke_repeatedly _ _ Scenario.quiet_world click_element Scenario.click_args 2
     new_browser 0%nat).1.2.

(** *** Notions for runs of the flow *)

Section Runs.
Context {W Env : Type} `{!Externals W Env}.

(** The model answers every completion question. *)
Definition completion_answered : Prop :=
  forall task history env w, exists answer w',
    call_llm (CompletionPrompt (Env := Env) task history env) w = (inl answer, w').

(** Every plan the planner reads from a reply names its action by a
    value that can be hashed: not by a list or a mapping. *)
Definition plans_hashable : Prop :=
  forall reply w op,
    (read_plan reply w).1 = GoodPlan op -> hash_error (action op) = None.

(** When the executor is due, it finds a plan whose action can be
    hashed. *)
Definition executable (st : @flow_state W Env) : Prop :=
  curr st = Running execute_node ->
  exists op, planned_operation (store st) = Some op
             /\ hash_error (action op) = None.

(** The executor errors since its last success, counted along a list of
    events from the count [so_far]. *)
Definition errors_since_success (events : list (node * string)) (so_far : Z) : Z :=
  fold_left (fun count e =>
               if bool_decide (e.1 = execute_node)
               then if bool_decide (e.2 = "success") then 0 else count + 1
               else count) events so_far.

(** One when the flow is about to run the observer, zero otherwise. *)
Definition observing (st : @flow_state W Env) : Z :=
  match curr st with Running observe_node => 1 | _ => 0 end.

(** The flow is about to run the finish node, or has run it. *)
Definition finishing (st : @flow_state W Env) : bool :=
  match curr st with Running finish_node | Ended => true | _ => false end.

(** What holds of every state of a run that [main] starts for the task
    [t]: the task is in the store; the history has one record for each
    round the observer has counted, and one more while the observer is
    due; the finish node is reached only after a counted round; the
    final message is absent before the finish node is due and present
    from then on; the executor finds a plan. *)
Definition well_formed (t : string) (st : @flow_state W Env) : Prop :=
  task (store st) = Some t
  /\ (exists h, operation_history (store st) = Some h
                /\ Z.of_nat (length h) = iterations (store st) + observing st)
  /\ 0 <= iterations (store st)
  /\ (finishing st = true -> 1 <= iterations (store st))
  /\ (if finishing st then is_Some (final_message (store st))
      else final_message (store st) = None)
  /\ (curr st = Running execute_node -> is_Some (planned_operation (store st))).

(** What [browser_agent.run_async] returns: the flow's [post_async] is
    called without an execution result once the loop is over. *)
Definition run_async_result (st : @flow_state W Env) : string :=
  (BrowserAgent_post_async (store st) None).1.
End Runs.

End More.

(** * Properties *)

(** ** The repetition guard *)

Module TrackerFacts.
Import Tracker.

Section GuardFacts.
Context {A K : Type} `{!EqDecision A, !EqDecision K}.
Implicit Types (c p : FunctionCall A K) (h pre : list (FunctionCall A K)).
Implicit Types (self : FunctionCallTracker A K) (ts : list Q).
Implicit Types (a : A) (k : K) (name : string).

Lemma in_window_snoc threshold ts t :
  in_window threshold (ts ++ [t]) = true ->
  in_window threshold ts = true /\ Forall (fun t' => within threshold t t' = true) ts.
Proof.
  induction ts as [|t0 ts IH]; simpl; [by auto|].
  rewrite andb_true_iff, forallb_app, andb_true_iff. simpl.
  rewrite andb_true_r. intros [[Hl Ht] Hw].
  destruct (IH Hw) as [IH1 IH2]. split.
  - by rewrite Hl, IH1.
  - by constructor.
Qed.

Lemma count_recent_duplicates_loop self c :
  count_recent_duplicates self c
  = count_loop (threshold_ms self) c (rev (call_history self)).
Proof. unfold count_recent_duplicates. by destruct (call_history self). Qed.

Lemma same_call_mk name a k t t' :
  same_call (mkCall name a k t) (mkCall name a k t') = true.
Proof. unfold same_call. simpl. by rewrite !bool_decide_eq_true_2. Qed.

Lemma same_call_differs name a k t p :
  ~ (func_name p = name /\ args p = a /\ kwargs p = k) ->
  same_call p (mkCall name a k t) = false.
Proof.
  intros Hne. unfold same_call. simpl.
  repeat case_bool_decide; simpl; try done. by destruct Hne.
Qed.

(** The scan counts every record of a run of in-window duplicates and
    goes on behind it. *)
Lemma count_loop_duplicates threshold name a k now ts rest :
  Forall (fun t => within threshold now t = true) ts ->
  count_loop threshold (mkCall name a k now)
    (map (mkCall name a k) ts ++ rest)
  = (length ts + count_loop threshold (mkCall name a k now) rest)%nat.
Proof.
  induction 1 as [|t ts Ht _ IH]; [done|]. simpl.
  unfold too_old, time_diff. simpl. unfold within in Ht. rewrite Ht. simpl.
  by rewrite same_call_mk, IH.
Qed.

Lemma count_loop_stops threshold name a k now pre :
  prior_differs name a k pre ->
  count_loop threshold (mkCall name a k now) (rev pre) = 0%nat.
Proof.
  intros Hpre. induction pre as [|p0 pre0 _] using rev_ind; [done|].
  rewrite rev_unit. simpl.
  rewrite (same_call_differs name a k now p0); [by destruct (too_old _ _ _)|].
  apply Hpre, last_snoc.
Qed.

(** With [ts] the readings of the identical calls recorded last, the
    count is their number. *)
Lemma count_after_duplicates self name a k now pre ts :
  call_history self = pre ++ map (mkCall name a k) ts ->
  prior_differs name a k pre ->
  Forall (fun t => within (threshold_ms self) now t = true) ts ->
  count_recent_duplicates self (mkCall name a k now) = length ts.
Proof.
  intros Hh Hpre Hts.
  rewrite count_recent_duplicates_loop, Hh, rev_app_distr, <- map_rev.
  rewrite count_loop_duplicates.
  - rewrite count_loop_stops by done. rewrite length_rev. lia.
  - by apply List.Forall_rev.
Qed.

(** Once the latest record is older than the threshold the count is back
    at zero, whatever the history holds. *)
Lemma count_after_window self c p h :
  call_history self = h ++ [p] ->
  too_old (threshold_ms self) c p = true ->
  count_recent_duplicates self c = 0%nat.
Proof.
  intros Hh Hold. rewrite count_recent_duplicates_loop, Hh, rev_unit.
  simpl. by rewrite Hold.
Qed.

Section Sequence.
Context {W R E : Type}.
Variable func : A -> K -> W -> (R + E) * W.
Variable name : string.

Lemma call_repeatedly_snoc self ts t a k w :
  call_repeatedly func name self (ts ++ [t]) a k w
  = let '(rs, self1, w1) := call_repeatedly func name self ts a k w in
    let '(r, self2, w2) := wrapper func name self1 t a k w1 in
    (rs ++ [r], self2, w2).
Proof.
  revert self w. induction ts as [|t0 ts IH]; intros self w; simpl.
  - by destruct (wrapper func name self t a k w) as [[r self1] w1].
  - destruct (wrapper func name self t0 a k w) as [[r self1] w1].
    rewrite IH.
    destruct (call_repeatedly func name self1 ts a k w1) as [[rs self2] w2].
    by destruct (wrapper func name self2 t a k w2) as [[r' self3] w3].
Qed.

(** [wrapper] by the value of [repeat_count]. *)
Lemma wrapper_by_count self now a k w :
  let n := Z.of_nat (count_recent_duplicates self (mkCall name a k now)) in
  let msg := mkWarning name (threshold_ms self) n a k in
  wrapper func name self now a k w
  = if bool_decide (max_repeats self <= n) then (RaisedRepeatedCall msg, self, w)
    else (if bool_decide (n = max_repeats self - 1)
          then mask_with msg (func a k w).1
          else pass_through (func a k w).1,
          record_call self (mkCall name a k now), (func a k w).2).
Proof.
  unfold wrapper. simpl. destruct (func a k w) as [o w']. simpl.
  by repeat case_bool_decide.
Qed.

Lemma prior_differs_tail a k p pre :
  prior_differs name a k (p :: pre) -> prior_differs name a k pre.
Proof.
  intros Hd q Hq. apply Hd. rewrite last_cons. by rewrite Hq.
Qed.

Lemma call_repeatedly_holds self0 ts a k w :
  max_repeats self0 <= Z.of_nat (max_history self0) ->
  prior_differs name a k (call_history self0) ->
  in_window (threshold_ms self0) ts = true ->
  holds_recorded name self0 (call_repeatedly func name self0 ts a k w).1.2 a k ts.
Proof.
  intros HM Hpre. induction ts as [|t ts IH] using rev_ind; intros Hwin.
  { simpl. repeat split; try done. exists (call_history self0).
    rewrite take_nil. simpl. by rewrite app_nil_r. }
  apply in_window_snoc in Hwin as [Hwin Ht].
  specialize (IH Hwin). rewrite call_repeatedly_snoc.
  destruct (call_repeatedly func name self0 ts a k w) as [[rs self1] w1].
  simpl in IH. destruct IH as (HN & HT & HR & pre & Hh & Hp).
  rewrite wrapper_by_count.
  rewrite (count_after_duplicates self1 name a k t pre
             (take (Z.to_nat (max_repeats self0)) ts)); try done;
    [|rewrite HT; by apply Forall_take].
  rewrite length_take, HR.
  case_bool_decide as Hblocked; simpl.
  - repeat split; try done. exists pre. split; [|done].
    rewrite take_app_le; [done|lia].
  - repeat split; try done.
    assert (length ts < Z.to_nat (max_repeats self0))%nat as Hlt by lia.
    rewrite take_ge in Hh by lia.
    rewrite (take_ge (ts ++ [t])) by (rewrite length_app; simpl; lia).
    unfold record_call. cbn [call_history]. unfold deque_append. rewrite Hh, HN.
    destruct (Nat.ltb_spec (max_history self0)
                (length ((pre ++ map (mkCall name a k) ts) ++ [mkCall name a k t])))
      as [Hfull|Hroom].
    + rewrite !length_app, length_map in Hfull. simpl in Hfull.
      destruct pre as [|p pre]; [simpl in Hfull; lia|].
      exists pre. split; [|by eapply prior_differs_tail].
      rewrite map_app. simpl. by rewrite <- !app_assoc.
    + exists pre. split; [|done].
      rewrite map_app. simpl. by rewrite <- !app_assoc.
Qed.

(** The call made after [length ts] identical ones: the count it sees. *)
Lemma count_after_identical self0 ts now a k w :
  max_repeats self0 <= Z.of_nat (max_history self0) ->
  prior_differs name a k (call_history self0) ->
  in_window (threshold_ms self0) (ts ++ [now]) = true ->
  count_recent_duplicates (call_repeatedly func name self0 ts a k w).1.2
    (mkCall name a k now)
  = (Z.to_nat (max_repeats self0) `min` length ts)%nat.
Proof.
  intros HM Hpre Hwin. apply in_window_snoc in Hwin as [Hwin Ht].
  destruct (call_repeatedly_holds self0 ts a k w HM Hpre Hwin)
    as (HN & HT & HR & pre & Hh & Hp).
  rewrite (count_after_duplicates _ name a k now pre
             (take (Z.to_nat (max_repeats self0)) ts)); try done.
  - by rewrite length_take.
  - rewrite HT. by apply Forall_take.
Qed.

(** The verdict on the call made after [length ts] identical ones. *)
Lemma wrapper_after_identical self0 ts now a k w0 :
  1 <= max_repeats self0 <= Z.of_nat (max_history self0) ->
  prior_differs name a k (call_history self0) ->
  in_window (threshold_ms self0) (ts ++ [now]) = true ->
  let st := call_repeatedly func name self0 ts a k w0 in
  let i := Z.of_nat (length ts) in
  let M := max_repeats self0 in
  let call := mkCall name a k now in
  let msg n := mkWarning name (threshold_ms self0) n a k in
  wrapper func name st.1.2 now a k st.2
  = if bool_decide (M <= i) then (RaisedRepeatedCall (msg M), st.1.2, st.2)
    else if bool_decide (i = M - 1)
    then (mask_with (msg (M - 1)) (func a k st.2).1,
          record_call st.1.2 call, (func a k st.2).2)
    else (pass_through (func a k st.2).1,
          record_call st.1.2 call, (func a k st.2).2).
Proof.
  intros HM Hpre Hwin st i M call msg.
  rewrite wrapper_by_count.
  unfold st. rewrite (count_after_identical self0 ts now a k w0); [|lia|done|done].
  pose proof Hwin as Hwin'. apply in_window_snoc in Hwin' as [Hwin' _].
  destruct (call_repeatedly_holds self0 ts a k w0 ltac:(lia) Hpre Hwin')
    as (_ & HT & HR & _).
  fold st in HT, HR |- *. rewrite HT, HR. fold M. fold i.
  assert (Z.of_nat (Z.to_nat M `min` length ts) = Z.min M i) as -> by (unfold i; lia).
  unfold msg.
  repeat case_bool_decide; try lia; try done.
  - by replace (Z.min M i) with M by lia.
  - by replace (Z.min M i) with (M - 1) by lia.
Qed.

Lemma deque_append_cases (n : nat) h c :
  deque_append n h c
  = if (length h <? n)%nat then h ++ [c] else tail (h ++ [c]).
Proof.
  unfold deque_append. rewrite length_app. simpl.
  destruct (Nat.ltb_spec n (length h + 1)), (Nat.ltb_spec (length h) n);
    try done; lia.
Qed.

(** Brings an instance of [wrapper_after_identical] at explicit
    readings to the equation it gives for that call. *)
Ltac settle_verdict C :=
  cbn [app in_window forallb length fst snd] in C;
  repeat match type of C with
         | context [within _ ?t ?t'] =>
             match goal with
             | H : within _ t t' = true |- _ => rewrite H in C
             end
         end;
  specialize (C eq_refl);
  repeat match type of C with
         | context [bool_decide ?P] =>
             first [ rewrite (bool_decide_eq_true_2 P) in C by lia
                   | rewrite (bool_decide_eq_false_2 P) in C by lia ]
         end.

(** C2. A tracker with [max_repeats = 3] and the 30000 ms threshold,
    called four times in a row with the same arguments, all readings
    within the threshold of each other: the first and the second call
    run the function and hand back what it produced; the third runs it
    and returns the warning instead; the fourth raises
    [RepeatedCallError] and the function is not run, so the world is
    the one the third call left. *)
Theorem four_identical_calls self0 a k t1 t2 t3 t4 w0 :
  max_repeats self0 = 3 ->
  threshold_ms self0 = 30000 ->
  (3 <= max_history self0)%nat ->
  prior_differs name a k (call_history self0) ->
  in_window 30000 [t1; t2; t3; t4] = true ->
  let r1 := func a k w0 in
  let r2 := func a k r1.2 in
  let r3 := func a k r2.2 in
  let msg n := mkWarning name 30000 n a k in
  exists self,
    call_repeatedly func name self0 [t1; t2; t3; t4] a k w0
    = ([pass_through r1.1; pass_through r2.1; mask_with (msg 2) r3.1;
        RaisedRepeatedCall (msg 3)], self, r3.2).
Proof.
  intros HM HT HN Hpre Hwin r1 r2 r3 msg.
  simpl in Hwin. rewrite !andb_true_iff in Hwin.
  destruct Hwin as [[H21 [H31 [H41 _]]] [[H32 [H42 _]] [[H43 _] _]]].
  assert (1 <= max_repeats self0 <= Z.of_nat (max_history self0)) as HM' by lia.
  pose proof (wrapper_after_identical self0 [] t1 a k w0 HM' Hpre) as C1.
  pose proof (wrapper_after_identical self0 [t1] t2 a k w0 HM' Hpre) as C2.
  pose proof (wrapper_after_identical self0 [t1; t2] t3 a k w0 HM' Hpre) as C3.
  pose proof (wrapper_after_identical self0 [t1; t2; t3] t4 a k w0 HM' Hpre) as C4.
  rewrite HT, HM in C1, C2, C3, C4.
  cbv zeta in C1, C2, C3, C4.
  cbn [call_repeatedly] in C1, C2, C3, C4 |- *.
  settle_verdict C1. rewrite C1 in C2, C3, C4 |- *. clear C1.
  settle_verdict C2. rewrite C2 in C3, C4 |- *. clear C2.
  settle_verdict C3. rewrite C3 in C4 |- *. clear C3.
  settle_verdict C4. rewrite C4. clear C4.
  by eexists.
Qed.

(** C3, as the code has it. A call is rejected exactly when the count
    of recent duplicates has reached [max_repeats]; a rejected call
    leaves the tracker and the world as they were, so it is not in the
    history the next call is counted against. Every other call is
    appended to the history before the function runs: at the recent
    end, the oldest record making room when the deque is full. *)
Theorem recorded_unless_rejected self now a k w :
  let call := mkCall name a k now in
  let n := Z.of_nat (count_recent_duplicates self call) in
  let out := wrapper func name self now a k w in
  if bool_decide (max_repeats self <= n)
  then out = (RaisedRepeatedCall (mkWarning name (threshold_ms self) n a k),
              self, w)
  else (forall m, out.1.1 <> RaisedRepeatedCall m)
       /\ call_history out.1.2
          = (if (length (call_history self) <? max_history self)%nat
             then call_history self ++ [call]
             else tail (call_history self ++ [call]))
       /\ max_history out.1.2 = max_history self
       /\ out.2 = (func a k w).2.
Proof.
  intros call n out. unfold out. rewrite wrapper_by_count. fold call. fold n.
  case_bool_decide; [done|]. cbn [fst snd record_call call_history max_history].
  split; [|by rewrite deque_append_cases].
  intros m. destruct (func a k w) as [[r|e] w']; simpl;
    by case_bool_decide.
Qed.

(** C8, as the code has it. On a tracker with
    [1 <= max_repeats <= max_history], whose latest record is of
    another call, identical calls with all readings within the
    threshold of each other are treated by position: the call that
    follows [i] of them passes the function's outcome through when
    [i < max_repeats - 1], runs the function and returns the warning
    when [i = max_repeats - 1], and raises [RepeatedCallError] without
    running the function or touching the tracker when
    [i >= max_repeats]. So [max_repeats - 1] calls pass, call number
    [max_repeats] is the warning, and every later one is rejected. *)
Theorem verdict_by_position self0 ts now a k w0 :
  1 <= max_repeats self0 <= Z.of_nat (max_history self0) ->
  prior_differs name a k (call_history self0) ->
  in_window (threshold_ms self0) (ts ++ [now]) = true ->
  let st := call_repeatedly func name self0 ts a k w0 in
  let i := Z.of_nat (length ts) in
  let M := max_repeats self0 in
  let call := mkCall name a k now in
  let msg n := mkWarning name (threshold_ms self0) n a k in
  wrapper func name st.1.2 now a k st.2
  = if bool_decide (M <= i) then (RaisedRepeatedCall (msg M), st.1.2, st.2)
    else if bool_decide (i = M - 1)
    then (mask_with (msg (M - 1)) (func a k st.2).1,
          record_call st.1.2 call, (func a k st.2).2)
    else (pass_through (func a k st.2).1,
          record_call st.1.2 call, (func a k st.2).2).
Proof. apply wrapper_after_identical. Qed.
End Sequence.
End GuardFacts.

Import Agent Scenario.

Lemma four_identical_calls_witness :
  in_window 30000 [0%Q; 1%Q; 2%Q; 3%Q] = true
  /\ exists self,
       call_repeatedly counting_func "click_element" new_tracker
         [0%Q; 1%Q; 2%Q; 3%Q] click_args ∅ 0%nat
       = ([Returned 0%nat; Returned 1%nat;
           ReturnedWarning (mkWarning "click_element" 30000 2 click_args ∅);
           RaisedRepeatedCall (mkWarning "click_element" 30000 3 click_args ∅)],
          self, 3%nat).
Proof.
  split; [reflexivity|].
  apply (four_identical_calls counting_func "click_element" new_tracker
           click_args ∅ 0%Q 1%Q 2%Q 3%Q 0%nat); try reflexivity.
  - simpl. lia.
  - intros p Hp. discriminate Hp.
Defined.

Lemma verdict_by_position_witness :
  in_window 30000 ([0%Q; 1%Q; 2%Q] ++ [3%Q]) = true
  /\ let st := call_repeatedly counting_func "click_element" new_tracker
                 [0%Q; 1%Q; 2%Q] click_args ∅ 0%nat in
     wrapper counting_func "click_element" st.1.2 3%Q click_args ∅ st.2
     = (RaisedRepeatedCall (mkWarning "click_element" 30000 3 click_args ∅),
        st.1.2, st.2).
Proof.
  split; [reflexivity|].
  apply (verdict_by_position counting_func "click_element" new_tracker
           [0%Q; 1%Q; 2%Q] 3%Q click_args ∅ 0%nat); try reflexivity.
  - simpl. lia.
  - intros p Hp. discriminate Hp.
Defined.

(** The fourth of [four_calls] is rejected, and the history afterwards
    holds the records of the first three calls only. *)
Lemma rejected_call_absent_from_history :
  four_calls.1.1 !! 3%nat
  = Some (RaisedRepeatedCall (mkWarning "click_element" 30000 3 click_args ∅))
  /\ map timestamp (call_history four_calls.1.2) = [0%Q; 1%Q; 2%Q].
Proof. split; reflexivity. Qed.

(** With [max_repeats = 3] the second call is an ordinary pass and the
    third returns the warning, where the stated policy has the warning on
    the second call and the failure on the third. *)
Lemma stated_policy_fails_for_three :
  ~ policy_as_stated 3 four_calls.1.1.
Proof.
  intros (_ & [m Hm] & _). vm_compute in Hm. discriminate Hm.
Qed.

End TrackerFacts.

(** ** The executor, the prompts and the observer's verdict *)

Module AgentFacts.
Import Agent Scenario.

Section ExecutorFacts.
Context {W Env : Type} `{!Externals W Env}.
Implicit Types (s : @shared Env) (b : browser_state) (w : W).
Implicit Types (op : operation) (d : gmap string pyval).

Lemma validate_reports_missing (a : pyval) d (required : list string)
    (param : string) :
  param ∈ required -> d !! param = None ->
  exists e, _validate_params_by_config a (ParamsDict d) required = Some e.
Proof.
  induction required as [|p0 rest IH]; intros Hin Hd.
  - by apply elem_of_nil in Hin.
  - simpl. case_bool_decide as Hp0; [by eexists|].
    apply elem_of_cons in Hin as [->|Hin]; [done|by apply IH].
Qed.

(** An action of the dispatch table is a string, which can be hashed. *)
Lemma lookup_action_hashable (a : pyval) (cfg : op_config) :
  lookup_action a = Some cfg -> hash_error a = None.
Proof. by destruct a. Qed.

Lemma exec_async_hashable op b w :
  hash_error (action op) = None ->
  exec_async op b w
  = (inl (exec_async_body op b w).1.1, (exec_async_body op b w).1.2,
     (exec_async_body op b w).2).
Proof.
  intros Hhash. unfold exec_async. rewrite Hhash.
  by destruct (exec_async_body op b w) as [[exec_res b'] w'].
Qed.

(** C7. A plan whose action is in the dispatch table and whose [params],
    once normalised to a mapping, lacks one of the required parameters of
    that action is answered with the ["parameter_validation"] error
    dictionary; the browser object and the world are returned as they
    were given, so no driver method ran. *)
Theorem missing_required_parameter op (cfg : op_config) d (param : string) b w :
  lookup_action (action op) = Some cfg ->
  normalise_params op = ParamsDict d ->
  param ∈ required_params cfg ->
  d !! param = None ->
  exists e,
    exec_async op b w
    = (inl (ErrorDict "parameter_validation" (ValidationMsg e) None), b, w).
Proof.
  intros Hcfg Hnorm Hin Hd.
  rewrite exec_async_hashable by (by apply lookup_action_hashable with cfg).
  unfold exec_async_body. rewrite Hcfg, Hnorm.
  destruct (validate_reports_missing (action op) d _ param Hin Hd) as [e ->].
  by exists e.
Qed.

Lemma safe_data_history_length (h : list history_record) :
  (length (safe_data_history h) <= 5)%nat.
Proof.
  unfold safe_data_history, last_n.
  destruct (Nat.ltb_spec 5 (length (map to_safe_record h))) as [Hlong|Hshort].
  - rewrite length_drop. lia.
  - done.
Qed.

Lemma observer_history_length (h : list history_record) :
  length (observer_history h) = length h.
Proof. apply length_map. Qed.

(** C9, as the code has it. With an answer from the model, the
    observer finishes on the completion verdict exactly when the
    lower-cased answer contains "是" or "完成", wherever they stand, so
    also for an answer whose lower-cased form is "未完成"; when it
    contains neither, the iteration cap alone decides between finishing
    and continuing. [BrowserAgent.post_async] returns the same action. *)
Theorem completion_verdict_is_substring_test s (answer : string) (i : Z) :
  lower "" = "" ->
  let contains := str_in "是" (lower answer) || str_in "完成" (lower answer) in
  affirms (Some answer) = contains
  /\ observe_post_async s (Some (mkObservation (Some answer) (Some i)))
     = (if contains
        then ("finish", set_final_message (Some ("任务已完成：" +:+ answer)) s)
        else if bool_decide (30 <= i)
        then ("finish", set_final_message (Some MAX_ITERATIONS_MESSAGE) s)
        else ("continue", s))
  /\ (BrowserAgent_post_async s (Some (mkObservation (Some answer) (Some i)))).1
     = (observe_post_async s (Some (mkObservation (Some answer) (Some i)))).1
  /\ (lower answer = "未完成" -> contains = true).
Proof.
  intros Hlower contains.
  assert (affirms (Some answer) = contains) as Haff.
  { unfold affirms, contains. case_bool_decide as Hempty; [|done].
    subst answer. by rewrite Hlower. }
  split; [done|]. split; [|split].
  - unfold observe_post_async. cbn [completion_result obs_iteration cap_reached].
    rewrite Haff. by destruct contains.
  - unfold BrowserAgent_post_async, observe_post_async.
    cbn [completion_result obs_iteration cap_reached].
    destruct (affirms (Some answer)); [done|]. by case_bool_decide.
  - intros Hneg. unfold contains. rewrite Hneg. reflexivity.
Qed.

Lemma invoke_undecorated (m : method) (a : list pyval) b w :
  decorated m = false ->
  browser_method m a b w
  = (as_result (page_method m a w).1, b, (page_method m a w).2).
Proof.
  intros Hm. unfold browser_method. rewrite Hm.
  by destruct (page_method m a w).
Qed.

(** C10. Of the methods the executor can dispatch to, exactly
    [click_element], [input_text], [click_to_upload], [go_to_url],
    [open_tab], [close_tab] and [go_back] are decorated. Any number of
    calls of [scroll_down] or [scroll_up] with the same arguments are
    the calls of the method body itself, with the trackers untouched: no
    [RepeatedCallError] comes from the guard. A decorated method whose
    tracker counts [max_repeats] recent duplicates raises
    [RepeatedCallError] and does not run its body. *)
Theorem scrolling_is_not_guarded (m : method) (a : list pyval) b w :
  decorated m
  = bool_decide (m ∈ [click_element; input_text; click_to_upload; go_to_url;
                      open_tab; close_tab; go_back])
  /\ (m ∈ [scroll_down; scroll_up] ->
      forall n, invoke_repeatedly m a n b w
                = (map as_result (page_repeatedly m a n w).1, b,
                   (page_repeatedly m a n w).2))
  /\ (decorated m = true ->
      let now := (clock w).1 in
      let call := Tracker.mkCall (method_name m) a (∅ : gmap string pyval) now in
      let n := Z.of_nat (Tracker.count_recent_duplicates (trackers b m) call) in
      Tracker.max_repeats (trackers b m) <= n ->
      exists msg b',
        browser_method m a b w = (inr (RepeatedCallError msg), b', (clock w).2)
        /\ forall m', trackers b' m' = trackers b m').
Proof.
  split; [|split].
  - by destruct m.
  - intros Hm n. assert (decorated m = false) as Hdec.
    { apply list_elem_of_In in Hm. simpl in Hm.
      by destruct Hm as [<-|[<-|[]]]. }
    revert b w. induction n as [|n IH]; intros b w; [done|].
    simpl. rewrite invoke_undecorated by done. rewrite IH.
    destruct (page_method m a w) as [o w1]. simpl.
    by destruct (page_repeatedly m a n w1).
  - intros Hdec now call n Hfull. unfold browser_method. rewrite Hdec.
    destruct (clock w) as [t w0] eqn:Hclock. simpl in now.
    rewrite TrackerFacts.wrapper_by_count. fold call. fold n.
    rewrite bool_decide_eq_true_2 by done.
    eexists _, _. split; [reflexivity|].
    intros m'. simpl. case_bool_decide; by subst.
Qed.
End ExecutorFacts.

Lemma missing_required_parameter_witness :
  lookup_action (action input_without_text)
  = Some (mkConfig input_text ["xpath"; "text"] []
            (get_all [("xpath", PNone); ("text", PNone)]))
  /\ exists e,
       @exec_async _ _ quiet_world input_without_text new_browser 0%nat
       = (inl (ErrorDict "parameter_validation" (ValidationMsg e) None),
          new_browser, 0%nat).
Proof.
  split; [reflexivity|].
  apply (@missing_required_parameter _ _ quiet_world input_without_text
           (mkConfig input_text ["xpath"; "text"] []
              (get_all [("xpath", PNone); ("text", PNone)]))
           {[ "xpath" := PStr "//input" ]} "text" new_browser 0%nat).
  - reflexivity.
  - reflexivity.
  - simpl. repeat constructor.
  - reflexivity.
Defined.

Lemma scrolling_is_not_guarded_witness :
  (@invoke_repeatedly _ _ quiet_world scroll_down [PInt 300] 5 new_browser 0%nat).1.1
  = replicate 5 (inl (Value DNone))
  /\ exists msg b',
       @browser_method _ _ quiet_world click_element click_args
         after_three_clicks 3%nat
       = (inr (RepeatedCallError msg), b', 3%nat)
       /\ forall m', trackers b' m' = trackers after_three_clicks m'.
Proof.
  split.
  - destruct (@scrolling_is_not_guarded _ _ quiet_world scroll_down [PInt 300]
                new_browser 0%nat) as (_ & Hscroll & _).
    rewrite (Hscroll ltac:(repeat constructor) 5%nat). reflexivity.
  - destruct (@scrolling_is_not_guarded _ _ quiet_world click_element click_args
                after_three_clicks 3%nat) as (_ & _ & Hclick).
    apply Hclick; [reflexivity|]. vm_compute. intros Hgt. discriminate Hgt.
Defined.

(** C4. With six records in the store, the judgement prompt the observer
    sends carries all six, while the planning prompt carries five. *)
Theorem observer_prompt_carries_whole_history :
  (@observe_run _ _ prompt_log_world store_with_six []).2 = [6%nat]
  /\ (@plan_run _ _ prompt_log_world store_with_six []).2 = [5%nat].
Proof. split; reflexivity. Qed.

Lemma completion_verdict_witness :
  ascii_lower "" = ""
  /\ ascii_lower "未完成" = "未完成"
  /\ @observe_post_async _ unit quiet_world (initial_shared "task")
       (Some (mkObservation (Some "未完成") (Some 1)))
     = ("finish",
        set_final_message (Some "任务已完成：未完成") (initial_shared "task")).
Proof.
  split; [reflexivity|]. split; [reflexivity|].
  destruct (@completion_verdict_is_substring_test _ _ quiet_world
              (initial_shared "task") "未完成" 1 eq_refl) as (_ & Hpost & _ & _).
  exact Hpost.
Defined.

(** At the thirtieth iteration the observer finishes on the answer "否",
    which contains neither "是" nor "完成". *)
Lemma finish_without_affirmation :
  (@observe_post_async _ unit quiet_world (initial_shared "task")
     (Some (mkObservation (Some "否") (Some 30)))).1 = "finish"
  /\ str_in "是" (ascii_lower "否") || str_in "完成" (ascii_lower "否") = false.
Proof. split; reflexivity. Qed.


(** ** The flow *)

Section FlowFacts.
Context {W Env : Type} `{!Externals W Env}.
Implicit Types (s : @shared Env) (b : browser_state) (w : W).
Implicit Types (st : @flow_state W Env) (op : operation).

(** *** One turn at each node *)

Lemma step_get_env s b w :
  step (mkFlow (Running get_env_node) s b w)
  = match read_browser_env w with
    | (inl env, w') => mkFlow (Running plan_node) (set_browser_env (Some env) s) b w'
    | (inr e, w') => mkFlow (Crashed e) s b w'
    end.
Proof.
  unfold step, run_node, get_env_run. simpl.
  by destruct (read_browser_env w) as [[env|e] w'].
Qed.

Lemma step_plan s b w :
  step (mkFlow (Running plan_node) s b w)
  = match plan_prompt s with
    | None => mkFlow (Crashed (Exn "Exception" "任务信息缺失，请提供有效的 task")) s b w
    | Some p =>
        mkFlow (Running execute_node)
          (set_planned_operation (Some (plan_attempts max_retries 0 p w).1) s) b
          (plan_attempts max_retries 0 p w).2
    end.
Proof.
  unfold step, run_node, plan_run. cbn [curr store browser world].
  destruct (plan_prompt s) as [p|]; [|done].
  by destruct (plan_attempts max_retries 0 p w).
Qed.

Lemma execute_post_async_action s op exec_res w :
  get_next_node execute_node (Some (execute_post_async s op exec_res w).1.1)
  = Some (execute_target (default 0 (retry_count s)) exec_res).
Proof.
  unfold execute_post_async, execute_target.
  destruct (is_error exec_res); cbn [retry_count set_retry_count default from_option].
  - cbn [set_last_failed_operation set_operation_result retry_count].
    by destruct (transient _ && _).
  - cbn [operation_history set_last_failed_operation set_retry_count
         set_operation_result].
    by destruct (operation_history s).
Qed.

Lemma step_execute s b w op :
  planned_operation s = Some op ->
  hash_error (action op) = None ->
  let s1 := (execute_prep_async s).2 in
  let r := exec_async_body op b w in
  let q := execute_post_async s1 op r.1.1 r.2 in
  step (mkFlow (Running execute_node) s b w)
  = mkFlow (Running (execute_target (default 0 (retry_count s)) r.1.1))
      q.1.2 r.1.2 q.2.
Proof.
  intros Hop Hhash s1 r q.
  unfold step, run_node, execute_run. cbn [curr store browser world].
  pose proof (execute_post_async_action s1 op r.1.1 r.2) as Hnext.
  fold q in Hnext.
  assert (default 0 (retry_count s1) = default 0 (retry_count s)) as Hrc.
  { unfold s1, execute_prep_async. rewrite Hop.
    destruct (retry_count s) eqn:Hr; cbn [snd];
      destruct (last_failed_operation _); simpl; by rewrite ?Hr. }
  rewrite Hrc in Hnext.
  assert (execute_prep_async s = (inl op, s1)) as ->.
  { unfold s1, execute_prep_async. by rewrite Hop. }
  unfold exec_async. rewrite Hhash.
  fold r. destruct r as [[res b'] w1]. cbn [fst snd] in *.
  fold q. destruct q as [[act s2] w2]. cbn [fst snd] in *.
  by rewrite Hnext.
Qed.

(** The executor's turn on a plan whose action cannot be hashed. *)
Lemma step_execute_unhashable s b w op (text : string) :
  planned_operation s = Some op ->
  hash_error (action op) = Some text ->
  step (mkFlow (Running execute_node) s b w)
  = mkFlow (Crashed (Exn "TypeError" text)) (execute_prep_async s).2 b w.
Proof.
  intros Hop Hhash.
  unfold step, run_node, execute_run. cbn [curr store browser world].
  assert (execute_prep_async s = (inl op, (execute_prep_async s).2)) as ->
    by (unfold execute_prep_async; by rewrite Hop).
  unfold exec_async. by rewrite Hhash.
Qed.

Lemma execute_run_unhashable s b w op (text : string) :
  planned_operation s = Some op ->
  hash_error (action op) = Some text ->
  execute_run s b w = (inr (Exn "TypeError" text), (execute_prep_async s).2, b, w).
Proof.
  intros Hop Hhash. unfold execute_run.
  destruct (execute_prep_async s) as [[op'|e] s1] eqn:Hprep;
    unfold execute_prep_async in Hprep; rewrite Hop in Hprep; [|done].
  injection Hprep as <- <-. unfold exec_async. by rewrite Hhash.
Qed.

Lemma execute_run_planned s b w op :
  planned_operation s = Some op ->
  hash_error (action op) = None ->
  execute_run s b w
  = let r := exec_async_body op b w in
    let q := execute_post_async (execute_prep_async s).2 op r.1.1 r.2 in
    (inl (Some q.1.1), q.1.2, r.1.2, q.2).
Proof.
  intros Hop Hhash. unfold execute_run.
  destruct (execute_prep_async s) as [[op'|e] s1] eqn:Hprep;
    unfold execute_prep_async in Hprep; rewrite Hop in Hprep; [|done].
  injection Hprep as <- <-. cbv zeta. cbn [snd].
  unfold exec_async. rewrite Hhash.
  destruct (exec_async_body op b w) as [[exec_res b'] w1]. cbn [fst snd].
  by destruct (execute_post_async _ op exec_res w1) as [[act s2] w2].
Qed.

Lemma step_observe s b w :
  let p := observe_prep_async s in
  step (mkFlow (Running observe_node) s b w)
  = match observe_exec_async p.1 w with
    | (inr e, w') => mkFlow (Crashed e) p.2 b w'
    | (inl res, w') =>
        let q := observe_post_async p.2 (Some res) in
        mkFlow (if bool_decide (q.1 = "finish") then Running finish_node
                else Running get_env_node) q.2 b w'
    end.
Proof.
  intros p. unfold step, run_node, observe_run. cbn [curr store browser world].
  fold p. destruct p as [pr s1]. cbn [fst snd].
  destruct (observe_exec_async pr w) as [[res|e] w']; [|done].
  unfold observe_post_async.
  destruct (affirms (completion_result res)); [done|].
  by destruct (cap_reached (obs_iteration res)).
Qed.

Lemma step_finish s b w :
  let r := finish_exec_async (default "" (task s))
             (default [] (operation_history s)) w in
  step (mkFlow (Running finish_node) s b w)
  = mkFlow Ended (set_final_message (Some r.1) s) b r.2.
Proof.
  intros r. unfold step, run_node, finish_run. cbn [curr store browser world].
  fold r. by destruct r.
Qed.

(** *** What each node leaves in the store *)

Lemma execute_prep_async_keeps s :
  let s1 := (execute_prep_async s).2 in
  iteration s1 = iteration s /\ task s1 = task s
  /\ operation_history s1 = operation_history s
  /\ planned_operation s1 = planned_operation s
  /\ default 0 (retry_count s1) = default 0 (retry_count s).
Proof.
  unfold execute_prep_async. destruct (planned_operation s) eqn:Hop; [|done].
  destruct (retry_count s) eqn:Hr; cbn [snd];
    destruct (last_failed_operation _); simpl; by rewrite ?Hr, ?Hop.
Qed.

(** [execute_post_async] field by field. *)
Lemma execute_post_async_fields s op exec_res w :
  let q := execute_post_async s op exec_res w in
  iteration q.1.2 = iteration s
  /\ task q.1.2 = task s
  /\ operation_result q.1.2 = Some exec_res
  /\ q.1.1 = (if is_error exec_res
             then if transient (error_type_of exec_res)
                     && bool_decide (default 0 (retry_count s) + 1 <= 3)
                  then "retry" else "error"
             else "success")
  /\ operation_history q.1.2
     = (if is_error exec_res then operation_history s
        else (fun h => h ++ [mkRecord (record_format op) exec_res])
               <$> operation_history s)
  /\ retry_count q.1.2
     = Some (if is_error exec_res then default 0 (retry_count s) + 1 else 0)
  /\ last_failed_operation q.1.2
     = Some (if is_error exec_res then Some op else None)
  /\ (is_error exec_res = true -> planned_operation q.1.2 = planned_operation s)
  /\ q.2 = (if is_error exec_res
            && transient (error_type_of exec_res)
            && bool_decide (default 0 (retry_count s) + 1 <= 3)
           then sleep 1 w else w).
Proof.
  unfold execute_post_async. destruct (is_error exec_res).
  - cbn [retry_count set_retry_count set_last_failed_operation
         set_operation_result default from_option id].
    destruct (transient (error_type_of exec_res)),
      (bool_decide (default 0 (retry_count s) + 1 <= 3)); simpl; by repeat split.
  - cbn [operation_history set_retry_count set_last_failed_operation
         set_operation_result].
    destruct (operation_history s) eqn:Hh; simpl; by repeat split.
Qed.

Lemma observe_exec_async_iteration (pr : string * list history_record * option Env * Z)
    w res w' :
  observe_exec_async pr w = (inl res, w') -> obs_iteration res = Some pr.2.
Proof.
  destruct pr as [[[t h] env] i]. unfold observe_exec_async.
  destruct h; [by intros [= <- _]|].
  destruct (call_llm _ w) as [[answer|e] w1]; [by intros [= <- _]|done].
Qed.

Lemma observe_post_async_keeps s res :
  let q := observe_post_async s (Some res) in
  iteration q.2 = iteration s /\ task q.2 = task s
  /\ operation_history q.2 = operation_history s
  /\ (q.1 = "finish" \/ q.1 = "continue" /\ cap_reached (obs_iteration res) = false).
Proof.
  unfold observe_post_async.
  destruct (affirms (completion_result res)); [simpl; naive_solver|].
  destruct (cap_reached (obs_iteration res)); simpl; naive_solver.
Qed.

(** *** The iteration cap *)

Lemma step_within_cap st : within_cap st -> within_cap (step st).
Proof.
  destruct st as [c s b w]. destruct c as [n| |e]; [|done..].
  unfold within_cap at 1. cbn [curr store]. intros Hcap.
  destruct n.
  - rewrite step_get_env.
    destruct (read_browser_env w) as [[env|e] w']; unfold within_cap; simpl; [done|lia].
  - rewrite step_plan.
    destruct (plan_prompt s); unfold within_cap; simpl; [done|lia].
  - destruct (planned_operation s) as [op|] eqn:Hop;
      [destruct (hash_error (action op)) as [text|] eqn:Hhash|].
    + rewrite (step_execute_unhashable s b w op text Hop Hhash).
      destruct (execute_prep_async_keeps s) as (Hi' & _).
      unfold within_cap, iterations. cbn [curr store]. rewrite Hi'.
      fold (iterations s). lia.
    + rewrite (step_execute s b w op Hop Hhash). cbv zeta.
      destruct (execute_post_async_fields (execute_prep_async s).2 op
                  (exec_async_body op b w).1.1 (exec_async_body op b w).2) as (Hi & _).
      destruct (execute_prep_async_keeps s) as (Hi' & _).
      unfold within_cap, iterations. cbn [curr store]. rewrite Hi, Hi'.
      unfold execute_target.
      by repeat match goal with |- context [if ?c then _ else _] => destruct c end.
    + unfold step, run_node, execute_run, execute_prep_async.
      cbn [curr store browser world]. rewrite Hop.
      unfold within_cap. simpl. lia.
  - rewrite step_observe. cbv zeta.
    change (observe_prep_async s).2 with (set_iteration (Some (iterations s + 1)) s).
    destruct (observe_exec_async (observe_prep_async s).1 w)
      as [[res|e] w'] eqn:Hexec.
    + apply observe_exec_async_iteration in Hexec.
      change ((observe_prep_async s).1.2) with (iterations s + 1) in Hexec.
      destruct (observe_post_async_keeps
                  (set_iteration (Some (iterations s + 1)) s) res)
        as (Hi & _ & _ & Hact).
      unfold within_cap, iterations in *. cbn [curr store]. rewrite Hi.
      cbn [iteration set_iteration default from_option id].
      case_bool_decide as Hfin; [lia|].
      destruct Hact as [?|[_ Hnocap]]; [done|].
      rewrite Hexec in Hnocap. simpl in Hnocap.
      apply bool_decide_eq_false_1 in Hnocap. lia.
    + unfold within_cap, iterations in *. simpl. lia.
  - rewrite step_finish. unfold within_cap, iterations in *. simpl. lia.
Qed.

Lemma run_within_cap fuel st : within_cap st -> within_cap (run fuel st).
Proof.
  revert st. induction fuel as [|fuel IH]; intros st Hcap; [done|].
  simpl. by apply IH, step_within_cap.
Qed.

Lemma within_cap_bound st : within_cap st -> iterations (store st) <= 30.
Proof.
  unfold within_cap. destruct (curr st) as [[]| |]; lia.
Qed.

(** *** The history grows by the successes *)

Lemma successes_app (e1 e2 : list (node * string)) :
  successes (e1 ++ e2) = (successes e1 + successes e2)%nat.
Proof. unfold successes. by rewrite filter_app, length_app. Qed.

Lemma successes_one (n : node) (act : string) :
  successes [(n, act)]
  = if bool_decide (n = execute_node /\ act = "success") then 1%nat else 0%nat.
Proof.
  unfold successes. rewrite filter_cons, filter_nil.
  case_decide as Heq; case_bool_decide as Hb; try done.
  - injection Heq as -> ->. by destruct Hb.
  - destruct Hb as [-> ->]. by destruct Heq.
Qed.

(** The store and the event of a turn come from the same node run. *)
Lemma step_and_event st n :
  curr st = Running n ->
  store (step st) = (run_node n st).1.1.2
  /\ event st = match (run_node n st).1.1.1 with
               | inl act => [(n, default "" act)]
               | inr _ => []
               end.
Proof.
  intros Hn. unfold step, event. rewrite Hn.
  by destruct (run_node n st) as [[[[act|e] s'] b'] w'].
Qed.

Lemma run_node_history st n h :
  operation_history (store st) = Some h ->
  exists h',
    operation_history (run_node n st).1.1.2 = Some h'
    /\ length h'
       = (length h + match (run_node n st).1.1.1 with
                     | inl act => successes [(n, default "" act)]
                     | inr _ => 0
                     end)%nat.
Proof.
  destruct st as [c s b w]. cbn [store]. intros Hh.
  destruct n; unfold run_node; cbn [store browser world].
  - unfold get_env_run. destruct (read_browser_env w) as [[env|e] w'];
      exists h; simpl; split; try done; rewrite ?successes_one; simpl; lia.
  - unfold plan_run. destruct (plan_prompt s) as [p|].
    + destruct (plan_attempts max_retries 0 p w) as [op w'].
      exists h. simpl. split; [done|]. rewrite successes_one. simpl. lia.
    + exists h. simpl. split; [done|lia].
  - unfold execute_run.
    destruct (execute_prep_async_keeps s) as (_ & _ & Hh1 & _).
    destruct (execute_prep_async s) as [[op|e] s1]; cbn [snd] in Hh1.
    + unfold exec_async.
      destruct (hash_error (action op));
        [exists h; simpl; split; [by rewrite Hh1|lia]|].
      destruct (exec_async_body op b w) as [[res b'] w1].
      destruct (execute_post_async_fields s1 op res w1) as (_ & _ & _ & Hact & Hhist & _).
      destruct (execute_post_async s1 op res w1) as [[act s2] w2].
      cbn [fst snd] in *. rewrite Hhist, Hh1, Hh, Hact, successes_one.
      destruct (is_error res).
      * exists h. split; [done|].
        destruct (transient _ && _); rewrite bool_decide_eq_false_2;
          first [lia | by intros [_ ?]].
      * eexists. split; [reflexivity|].
        rewrite bool_decide_eq_true_2 by done. rewrite length_app. simpl. lia.
    + exists h. simpl. split; [by rewrite Hh1|lia].
  - unfold observe_run. cbn [observe_prep_async].
    destruct (observe_exec_async _ w) as [[res|e] w'].
    + destruct (observe_post_async_keeps
                  (set_iteration (Some (default 0 (iteration s) + 1)) s) res)
        as (_ & _ & Hhist & Hact).
      destruct (observe_post_async _ (Some res)) as [act s2]. cbn [fst snd] in *.
      exists h. split; [by rewrite Hhist|].
      rewrite successes_one, bool_decide_eq_false_2 by (by intros [? _]). lia.
    + exists h. simpl. split; [done|lia].
  - unfold finish_run.
    destruct (finish_exec_async _ _ w) as [r w'].
    exists h. simpl. split; [done|].
    rewrite successes_one. simpl. lia.
Qed.

Lemma step_history st h :
  operation_history (store st) = Some h ->
  exists h',
    operation_history (store (step st)) = Some h'
    /\ length h' = (length h + successes (event st))%nat.
Proof.
  intros Hh. destruct (curr st) as [n| |e] eqn:Hc.
  - destruct (step_and_event st n Hc) as [-> ->].
    destruct (run_node_history st n h Hh) as (h' & Hh' & Hlen).
    exists h'. split; [done|]. rewrite Hlen.
    by destruct ((run_node n st).1.1.1).
  - exists h. unfold step, event. rewrite Hc. split; [done|]. unfold successes. simpl. lia.
  - exists h. unfold step, event. rewrite Hc. split; [done|]. unfold successes. simpl. lia.
Qed.

(** C5, as the code has it. [execute_post_async] appends the record
    [{operation, result}] exactly when the result is not an error
    dictionary, in which case it returns ["success"]; on an error it
    returns ["retry"] or ["error"] and leaves the history as it was. In
    every run from the initial store the history is as long as the
    number of ["success"] outcomes of the executor so far. *)
Theorem history_counts_successes s op (exec_res : exec_result) w
    (the_task : string) (fuel : nat) :
  let q := execute_post_async s op exec_res w in
  q.1.1 = (if is_error exec_res
           then if transient (error_type_of exec_res)
                   && bool_decide (default 0 (retry_count s) + 1 <= 3)
                then "retry" else "error"
           else "success")
  /\ operation_history q.1.2
     = (if is_error exec_res then operation_history s
        else (fun h => h ++ [mkRecord (record_format op) exec_res])
               <$> operation_history s)
  /\ exists h,
       operation_history (store (run fuel (initial_state the_task w))) = Some h
       /\ length h = successes (trace fuel (initial_state the_task w)).
Proof.
  intros q.
  destruct (execute_post_async_fields s op exec_res w) as (_ & _ & _ & Hact & Hhist & _).
  split; [done|]. split; [done|].
  assert (forall n st h0, operation_history (store st) = Some h0 ->
            exists h, operation_history (store (run n st)) = Some h
                      /\ length h = (length h0 + successes (trace n st))%nat) as Hrun.
  { induction n as [|n IH]; intros st h0 Hh0.
    - exists h0. split; [done|]. unfold successes. simpl. lia.
    - destruct (step_history st h0 Hh0) as (h1 & Hh1 & Hlen1).
      destruct (IH (step st) h1 Hh1) as (h2 & Hh2 & Hlen2).
      exists h2. split; [done|]. cbn [trace]. rewrite successes_app. lia. }
  destruct (Hrun fuel (initial_state the_task w) [] eq_refl) as (h & Hh & Hlen).
  exists h. by split.
Qed.

(** *** Transient failures *)





(** *** Runs that never leave the fallback plan *)

Lemma run_add (n m : nat) st : run (n + m) st = run m (run n st).
Proof. revert st. induction n as [|n IH]; intros st; [done|]. simpl. apply IH. Qed.

Lemma plan_attempts_fallback (remaining attempt : nat) (p : prompt Env) w :
  plans_unreadable ->
  (plan_attempts remaining attempt p w).1 = default_plan.
Proof.
  intros Hbad. revert attempt w.
  induction remaining as [|remaining IH]; intros attempt w; [done|].
  simpl. destruct (call_llm p w) as [[reply|e] w1].
  - pose proof (Hbad reply w1) as Hreply.
    destruct (read_plan reply w1) as [[op| |e] w2]; simpl in Hreply.
    + by destruct (Hreply op).
    + destruct (attempt <? 2)%nat; [apply IH|done].
    + destruct (attempt <? 2)%nat; [apply IH|done].
  - destruct (attempt <? 2)%nat; [apply IH|done].
Qed.

(** The executor on the fallback plan: one call of the undecorated
    [scroll_down] with 300. *)
Lemma exec_async_default_plan b w :
  exec_async_body default_plan b w
  = (match (page_method scroll_down [PInt 300] w).1 with
     | inl v => Value v
     | inr e => ErrorDict (exn_class e) (ExecFailedMsg (PStr "scroll_down") e)
                  (Some (PStr "scroll_down", ParamsDict {[ "pixel" := PInt 300 ]}))
     end, b, (page_method scroll_down [PInt 300] w).2).
Proof.
  unfold exec_async_body.
  change (lookup_action (action default_plan))
    with (Some (mkConfig scroll_down [] ["pixel"] (get_all [("pixel", PInt 300)]))).
  cbn [required_params _validate_params_by_config cfg_method args_map].
  change (get_all [("pixel", PInt 300)] (normalise_params default_plan))
    with (Some [PInt 300]).
  cbv beta iota. rewrite invoke_undecorated by done.
  by destruct (page_method scroll_down [PInt 300] w) as [[v|e] w'].
Qed.

(** One cycle of a run that plans the fallback every time: snapshot,
    plan, scroll, judgement. *)
Lemma fallback_cycle (t : string) s b w (h : list history_record) :
  t <> "" ->
  snapshot_succeeds -> plans_unreadable -> scrolling_succeeds ->
  oracle_never_affirms ->
  task s = Some t ->
  operation_history s = Some h ->
  exists s' w' r,
    run 4 (mkFlow (Running get_env_node) s b w)
    = mkFlow (Running (if bool_decide (30 <= iterations s + 1)
                       then finish_node else get_env_node)) s' b w'
    /\ task s' = Some t
    /\ iteration s' = Some (iterations s + 1)
    /\ operation_history s' = Some (h ++ [r])
    /\ (30 <= iterations s + 1 -> final_message s' = Some MAX_ITERATIONS_MESSAGE).
Proof.
  intros Ht Hsnap Hbad Hscroll Horacle Htask Hh. cbn [run].
  rewrite step_get_env. destruct (Hsnap w) as (env & w1 & ->).
  rewrite step_plan. unfold plan_prompt. cbn [task set_browser_env].
  rewrite Htask, bool_decide_eq_false_2 by done.
  rewrite plan_attempts_fallback by done.
  match goal with |- context [(plan_attempts ?n ?a ?p ?w0).2] =>
    generalize ((plan_attempts n a p w0).2) end.
  intros w2.
  match goal with |- context [mkFlow (Running execute_node) ?s0 _ _] =>
    set (s2 := s0) end.
  rewrite (step_execute s2 b w2 default_plan eq_refl eq_refl). cbv zeta.
  rewrite exec_async_default_plan.
  destruct (Hscroll [PInt 300] w2) as (v & w3 & ->). cbn [fst snd].
  change (execute_target _ (Value v)) with observe_node.
  destruct (execute_post_async_fields (execute_prep_async s2).2 default_plan
              (Value v) w3) as (Hi & Htk & _ & _ & Hhist & _).
  destruct (execute_prep_async_keeps s2) as (Hi' & Htk' & Hh' & _).
  destruct (execute_post_async (execute_prep_async s2).2 default_plan (Value v) w3)
    as [[act s3] w3']. cbn [fst snd is_error] in *.
  rewrite Hi' in Hi. rewrite Htk' in Htk. rewrite Hh' in Hhist.
  subst s2. cbn [iteration task operation_history set_planned_operation
                 set_browser_env] in Hi, Htk, Hhist.
  rewrite Hh in Hhist. cbn [fmap option_fmap option_map] in Hhist.
  rewrite step_observe. cbv zeta. unfold observe_prep_async. cbn [fst snd].
  cbn [task operation_history browser_env set_iteration].
  unfold observe_exec_async. rewrite Hhist, Hi, Htk. cbn [default from_option id].
  remember (h ++ [mkRecord (record_format default_plan) (Value v)])
    as hist eqn:Hhd.
  destruct hist as [|r0 h0]; [by destruct h|].
  match goal with |- context [call_llm (CompletionPrompt ?a ?c ?e) ?w0] =>
    destruct (Horacle a c e w0) as (answer & w4 & -> & Haff) end.
  cbv beta iota.
  unfold observe_post_async. cbn [completion_result obs_iteration cap_reached].
  rewrite Haff. fold (iterations s).
  destruct (bool_decide (30 <= iterations s + 1)) eqn:Hcap; cbn [fst snd].
  - rewrite bool_decide_eq_true_2 by done.
    eexists _, _, _. split; [reflexivity|]. cbn. by rewrite Htk, Hhist, Hhd.
  - rewrite bool_decide_eq_false_2 by done.
    eexists _, _, _. split; [reflexivity|]. cbn. rewrite Htk, Hhist, Hhd.
    repeat split; try done. apply bool_decide_eq_false_1 in Hcap. lia.
Qed.

Lemma fallback_cycles (t : string) w (k : nat) :
  t <> "" ->
  snapshot_succeeds -> plans_unreadable -> scrolling_succeeds ->
  oracle_never_affirms ->
  (k <= 29)%nat ->
  exists s' w' h,
    run (4 * k) (initial_state t w) = mkFlow (Running get_env_node) s' new_browser w'
    /\ task s' = Some t
    /\ iterations s' = Z.of_nat k
    /\ operation_history s' = Some h.
Proof.
  intros Ht Hsnap Hbad Hscroll Horacle.
  induction k as [|k IH]; intros Hk.
  - by exists (initial_shared t), w, [].
  - destruct IH as (s1 & w1 & h1 & Hrun & Htask & Hiter & Hhist); [lia|].
    replace (4 * S k)%nat with (4 * k + 4)%nat by lia.
    rewrite run_add, Hrun.
    destruct (fallback_cycle t s1 new_browser w1 h1 Ht Hsnap Hbad Hscroll Horacle
                Htask Hhist) as (s2 & w2 & r & Hrun2 & Htask2 & Hiter2 & Hhist2 & _).
    rewrite Hrun2, bool_decide_eq_false_2 by lia.
    exists s2, w2, (h1 ++ [r]). repeat split; try done.
    unfold iterations. rewrite Hiter2. simpl. lia.
Qed.

(** *** Every run with finitely many failed executions is over *)

Lemma failures_app (e1 e2 : list (node * string)) :
  failures (e1 ++ e2) = (failures e1 + failures e2)%nat.
Proof. unfold failures. by rewrite filter_app, length_app. Qed.

Lemma failures_one (n : node) (act : string) :
  failures [(n, act)]
  = if bool_decide (n = execute_node /\ act <> "success") then 1%nat else 0%nat.
Proof.
  unfold failures. rewrite filter_cons, filter_nil. cbn [fst snd].
  by case_decide; case_bool_decide.
Qed.

Lemma turns_left_running st (n : node) :
  within_cap st -> curr st = Running n -> 1 <= turns_left st.
Proof.
  unfold within_cap, turns_left. intros Hcap Hn. rewrite Hn in *.
  destruct n; lia.
Qed.

Lemma run_over (fuel : nat) st :
  (forall n, curr st <> Running n) -> run fuel st = st.
Proof.
  intros Hst. induction fuel as [|fuel IH]; [done|].
  cbn [run]. unfold step. by destruct (curr st) as [n| |e]; [destruct (Hst n)|..].
Qed.

(** A turn uses up one of the turns left, unless it is a failed
    execution, which gives back at most one. *)
Lemma step_turns_left st (n : node) :
  within_cap st -> curr st = Running n ->
  turns_left (step st) + 1
  <= turns_left st + 2 * Z.of_nat (failures (event st)).
Proof.
  intros Hcap Hn.
  destruct (step_and_event st n Hn) as [_ Hevent].
  destruct st as [c s b w]. cbn [curr] in Hn. subst c.
  unfold within_cap in Hcap. cbn [curr store] in Hcap.
  destruct n.
  - rewrite step_get_env.
    destruct (read_browser_env w) as [[env|e] w'];
      unfold turns_left, iterations in *; cbn [curr store iteration set_browser_env];
      lia.
  - rewrite step_plan.
    destruct (plan_prompt s);
      unfold turns_left, iterations in *;
      cbn [curr store iteration set_planned_operation]; lia.
  - destruct (execute_prep_async_keeps s) as (Hi' & _).
    destruct (planned_operation s) as [op|] eqn:Hop;
      [destruct (hash_error (action op)) as [text|] eqn:Hhash|].
    + rewrite (step_execute_unhashable s b w op text Hop Hhash).
      unfold turns_left, iterations in *. cbn [curr store]. lia.
    + cbn [run_node store browser world] in Hevent.
      rewrite (execute_run_planned s b w op Hop Hhash) in Hevent.
      cbv zeta in Hevent. cbn [fst snd default from_option id] in Hevent.
      rewrite Hevent, failures_one.
      rewrite (step_execute s b w op Hop Hhash). cbv zeta.
      destruct (execute_post_async_fields (execute_prep_async s).2 op
                  (exec_async_body op b w).1.1 (exec_async_body op b w).2)
        as (Hi & _ & _ & Hact & _).
      unfold turns_left, iterations in *. cbn [curr store].
      rewrite Hi, Hi', Hact. unfold execute_target.
      destruct (is_error (exec_async_body op b w).1.1).
      * match goal with
        | |- context [bool_decide (execute_node = execute_node /\ ?P)] =>
            rewrite (bool_decide_eq_true_2 (execute_node = execute_node /\ P))
        end.
        -- destruct (transient _ && bool_decide (default 0 (retry_count s) + 1 <= 3));
             lia.
        -- split; [done|].
           match goal with |- (if ?c then _ else _) <> _ => by destruct c end.
      * rewrite bool_decide_eq_false_2 by (by intros [_ ?]). lia.
    + unfold step, run_node, execute_run, execute_prep_async.
      cbn [curr store browser world]. rewrite Hop.
      unfold turns_left, iterations in *. cbn [curr store]. lia.
  - rewrite step_observe. cbv zeta.
    destruct (observe_exec_async (observe_prep_async s).1 w) as [[res|e] w'].
    + destruct (observe_post_async_keeps (observe_prep_async s).2 res)
        as (Hi & _).
      unfold turns_left, iterations in *. cbn [curr store].
      rewrite Hi. cbn [observe_prep_async snd iteration set_iteration
                       default from_option id].
      case_bool_decide; lia.
    + unfold turns_left, iterations in *. cbn [curr store]. lia.
  - rewrite step_finish. unfold turns_left. cbn [curr]. lia.
Qed.

Lemma run_stops (fuel : nat) st :
  within_cap st ->
  turns_left st + 2 * Z.of_nat (failures (trace fuel st)) <= Z.of_nat fuel ->
  forall n, curr (run fuel st) <> Running n.
Proof.
  revert st. induction fuel as [|fuel IH]; intros st Hcap Hleft n Hn.
  - cbn [run trace] in *. pose proof (turns_left_running st n Hcap Hn).
    unfold failures in Hleft. cbn in Hleft. lia.
  - destruct (curr st) as [n0| |e] eqn:Hc.
    + cbn [run trace] in *. rewrite failures_app in Hleft.
      pose proof (step_turns_left st n0 Hcap Hc).
      apply (IH (step st)) with n; [by apply step_within_cap|lia|done].
    + rewrite run_over in Hn by (rewrite Hc; done). by rewrite Hc in Hn.
    + rewrite run_over in Hn by (rewrite Hc; done). by rewrite Hc in Hn.
Qed.

(** C1, as the code has it. From the initial store the iteration counter
    never exceeds 30 in any run, and an observer that finds the counter at
    30 or more without an affirmative answer stores the max-iterations
    message and returns ["finish"]. Every run in which only finitely
    many executions fail is over, whatever the planner's replies and the
    completion answers are: when at most [E] executions have returned
    ["error"] or ["retry"] in the first [121 + 2 * E] turns, the flow
    has by then ended, or has been stopped by an exception that left a
    node; with no failed execution that is after at most 30 rounds of
    four turns and the finish node's turn. A run whose snapshots and scrolls
    succeed, in which no reply can be read as a plan and no completion
    answer affirms, is at the finish node after 30 iterations (120
    turns) with that message in the store, and is over one turn later. *)
Theorem run_is_capped (the_task : string) w :
  (forall fuel, iterations (store (run fuel (initial_state the_task w))) <= 30)
  /\ (forall s res,
        affirms (completion_result res) = false ->
        cap_reached (obs_iteration res) = true ->
        observe_post_async s (Some res)
        = ("finish", set_final_message (Some MAX_ITERATIONS_MESSAGE) s))
  /\ (forall fuel failed_executions : nat,
        (failures (trace fuel (initial_state the_task w)) <= failed_executions)%nat ->
        (121 + 2 * failed_executions <= fuel)%nat ->
        let over := run fuel (initial_state the_task w) in
        curr over = Ended \/ exists e, curr over = Crashed e)
  /\ (the_task <> "" ->
      snapshot_succeeds -> plans_unreadable -> scrolling_succeeds ->
      oracle_never_affirms ->
      let at_cap := run 120 (initial_state the_task w) in
      curr at_cap = Running finish_node
      /\ iteration (store at_cap) = Some 30
      /\ final_message (store at_cap) = Some MAX_ITERATIONS_MESSAGE
      /\ curr (run 121 (initial_state the_task w)) = Ended
      /\ iteration (store (run 121 (initial_state the_task w))) = Some 30).
Proof.
  split; [|split; [|split]].
  - intros fuel. apply within_cap_bound, run_within_cap.
    unfold within_cap, iterations. simpl. lia.
  - intros s res Haff Hcap. unfold observe_post_async. by rewrite Haff, Hcap.
  - intros fuel failed_executions Hfailed Hfuel over.
    assert (forall n, curr over <> Running n) as Hover.
    { apply run_stops.
      - unfold within_cap, iterations. simpl. lia.
      - unfold turns_left, iterations. cbn. lia. }
    destruct (curr over) as [n| |e]; [by destruct (Hover n)|by left|right; by exists e].
  - intros Ht Hsnap Hbad Hscroll Horacle at_cap.
    destruct (fallback_cycles the_task w 29 Ht Hsnap Hbad Hscroll Horacle ltac:(lia))
      as (s1 & w1 & h1 & Hrun & Htask & Hiter & Hhist).
    destruct (fallback_cycle the_task s1 new_browser w1 h1 Ht Hsnap Hbad Hscroll
                Horacle Htask Hhist)
      as (s2 & w2 & r & Hrun2 & Htask2 & Hiter2 & Hhist2 & Hmsg).
    rewrite bool_decide_eq_true_2 in Hrun2 by lia.
    assert (run 120 (initial_state the_task w)
            = mkFlow (Running finish_node) s2 new_browser w2) as Hcap.
    { change 120%nat with (4 * 29 + 4)%nat. by rewrite run_add, Hrun. }
    assert (run 121 (initial_state the_task w)
            = step (mkFlow (Running finish_node) s2 new_browser w2)) as Hend.
    { change 121%nat with (120 + 1)%nat. by rewrite run_add, Hcap. }
    unfold at_cap. rewrite Hend, Hcap, step_finish. cbn.
    rewrite Hiter2, Hiter, Hmsg by lia. by repeat split.
Qed.

End FlowFacts.

(** In the world whose page is gone, the third turn is an execution that
    fails and is sent back to planning, and the history is still empty. *)
Lemma failed_execution_is_not_recorded :
  @trace _ _ broken_page_world 3 (initial_state "task" 0%nat)
  = [(get_env_node, "default"); (plan_node, "default"); (execute_node, "error")]
  /\ curr (@run _ _ broken_page_world 3 (initial_state "task" 0%nat))
     = Running plan_node
  /\ operation_history (store (@run _ _ broken_page_world 3 (initial_state "task" 0%nat)))
     = Some [].
Proof. repeat split; reflexivity. Qed.

Lemma quiet_world_assumptions :
  @snapshot_succeeds _ _ quiet_world /\ @plans_unreadable _ _ quiet_world
  /\ @scrolling_succeeds _ _ quiet_world /\ @oracle_never_affirms _ _ quiet_world.
Proof.
  repeat split.
  - intros w. by exists tt, w.
  - intros reply w op. simpl. discriminate.
  - intros a w. by exists DNone, (S w).
  - intros t h env w. exists "否", w. split; reflexivity.
Qed.

Lemma run_is_capped_witness :
  "task" <> ""
  /\ (@snapshot_succeeds _ _ quiet_world /\ @plans_unreadable _ _ quiet_world
      /\ @scrolling_succeeds _ _ quiet_world /\ @oracle_never_affirms _ _ quiet_world)
  /\ curr (@run _ _ quiet_world 120 (initial_state "task" 0%nat)) = Running finish_node
  /\ iteration (store (@run _ _ quiet_world 120 (initial_state "task" 0%nat))) = Some 30
  /\ final_message (store (@run _ _ quiet_world 120 (initial_state "task" 0%nat)))
     = Some MAX_ITERATIONS_MESSAGE
  /\ curr (@run _ _ quiet_world 121 (initial_state "task" 0%nat)) = Ended
  /\ iteration (store (@run _ _ quiet_world 121 (initial_state "task" 0%nat))) = Some 30
  /\ failures (@trace _ _ prompt_log_world 121 (initial_state "task" [])) = 0%nat
  /\ (curr (@run _ _ prompt_log_world 121 (initial_state "task" [])) = Ended
      \/ exists e, curr (@run _ _ prompt_log_world 121 (initial_state "task" []))
                   = Crashed e).
Proof.
  assert ("task" <> "") as Htask by discriminate.
  split; [exact Htask|]. split; [exact quiet_world_assumptions|].
  destruct quiet_world_assumptions as (Hsnap & Hbad & Hscroll & Horacle).
  destruct (@run_is_capped _ _ quiet_world "task" 0%nat) as (_ & _ & _ & Hlive).
  destruct (Hlive Htask Hsnap Hbad Hscroll Horacle) as (H1 & H2 & H3 & H4 & H5).
  assert (failures (@trace _ _ prompt_log_world 121 (initial_state "task" []))
          = 0%nat) as Hnone by (vm_compute; reflexivity).
  destruct (@run_is_capped _ _ prompt_log_world "task" []) as (_ & _ & Hover & _).
  repeat apply conj; [exact H1|exact H2|exact H3|exact H4|exact H5|exact Hnone|].
  apply (Hover 121%nat 0%nat); [rewrite Hnone|]; lia.
Defined.

Lemma broken_page_step (st : @flow_state nat unit) :
  replanning st -> replanning (@step _ _ broken_page_world st).
Proof.
  destruct st as [c s b w]. intros [Htask Hc]. cbn [curr store] in *.
  destruct Hc as [->|[->|[-> Hop]]].
  - rewrite (@step_get_env _ _ broken_page_world). simpl.
    split; [done|]. by right; left.
  - rewrite (@step_plan _ _ broken_page_world). unfold plan_prompt.
    rewrite Htask, bool_decide_eq_false_2 by discriminate.
    split; [done|]. right; right. split; [done|]. reflexivity.
  - rewrite (@step_execute _ _ broken_page_world s b w default_plan Hop eq_refl). cbv zeta.
    rewrite exec_async_default_plan.
    cbn [page_method broken_page_world on_failing_page fst snd].
    destruct (@execute_prep_async_keeps unit s) as (_ & Htk' & _).
    match goal with |- context [@execute_post_async ?W0 ?E0 ?X ?s0 ?op0 ?r0 ?w0] =>
      destruct (@execute_post_async_fields W0 E0 X s0 op0 r0 w0) as (_ & Htk & _) end.
    split.
    + cbn [store]. by rewrite Htk, Htk'.
    + right; left. reflexivity.
Qed.

Lemma broken_page_run (fuel : nat) (st : @flow_state nat unit) :
  replanning st -> replanning (@run _ _ broken_page_world fuel st).
Proof.
  revert st. induction fuel as [|fuel IH]; intros st Hst; [done|].
  simpl. by apply IH, broken_page_step.
Qed.

(** With a page that fails every call the flow, planning the fallback
    each time, never ends and never completes an iteration; and in the
    quiet world, where the cap is reached, the message left in the store
    when the flow is over is the model's summary reply, which the flow's
    own [post_async] does not touch. *)
Lemma capped_run_counterexamples :
  ~ (exists fuel, curr (@run _ _ broken_page_world fuel (initial_state "task" 0%nat)) = Ended)
  /\ iteration (store (@run _ _ broken_page_world 400 (initial_state "task" 0%nat))) = None
  /\ curr (@run _ _ quiet_world 121 (initial_state "task" 0%nat)) = Ended
  /\ final_message (store (@run _ _ quiet_world 121 (initial_state "task" 0%nat)))
     = Some "否"
  /\ @BrowserAgent_post_async _ _ quiet_world
       (store (@run _ _ quiet_world 121 (initial_state "task" 0%nat))) None
     = ("finish", store (@run _ _ quiet_world 121 (initial_state "task" 0%nat))).
Proof.
  split; [|repeat apply conj; vm_compute; reflexivity].
  intros [fuel Hend].
  destruct (broken_page_run fuel (initial_state "task" 0%nat)) as [_ Hc].
  { split; [done|]. by left. }
  rewrite Hend in Hc. by destruct Hc as [?|[?|[? _]]].
Qed.



End AgentFacts.

(** ** More on the repetition guard *)

Module TrackerMore.
Import Tracker More TrackerFacts.

Section GuardMore.
Context {A K : Type} `{!EqDecision A, !EqDecision K} {W R E : Type}.
Variable func : A -> K -> W -> (R + E) * W.
Variable name : string.
Implicit Types (self : FunctionCallTracker A K) (c p : FunctionCall A K).
Implicit Types (h : list (FunctionCall A K)) (a : A) (k : K) (w : W).
Implicit Types (calls : list (Q * A * K)).

Lemma count_loop_le threshold c h : (count_loop threshold c h <= length h)%nat.
Proof.
  induction h as [|p h IH]; simpl; [lia|].
  destruct (too_old threshold c p); [lia|]. destruct (same_call p c); lia.
Qed.

Lemma count_le_history self c :
  (count_recent_duplicates self c <= length (call_history self))%nat.
Proof.
  rewrite count_recent_duplicates_loop.
  etrans; [apply count_loop_le|]. by rewrite length_rev.
Qed.

Lemma deque_append_length (n : nat) h c :
  (length h <= n)%nat -> (length (deque_append n h c) <= n)%nat.
Proof.
  intros Hn. rewrite deque_append_cases.
  destruct (Nat.ltb_spec (length h) n) as [Hlt|Hge].
  - rewrite length_app. simpl. lia.
  - destruct h as [|p h]; simpl in *; [lia|]. rewrite length_app. simpl. lia.
Qed.

Lemma deque_append_last (n : nat) h c p :
  last (deque_append n h c) = Some p -> p = c.
Proof.
  rewrite deque_append_cases. destruct (length h <? n)%nat.
  - rewrite last_snoc. by intros [= <-].
  - destruct h as [|p0 h]; simpl; [done|]. rewrite last_snoc. by intros [= <-].
Qed.

(** The tracker a call leaves: the one it found, or that one with the call
    recorded; in both cases with the same settings. *)
Lemma wrapper_tracker self now a k w :
  let self' := (wrapper func name self now a k w).1.2 in
  (self' = self \/ self' = record_call self (mkCall name a k now))
  /\ max_history self' = max_history self
  /\ threshold_ms self' = threshold_ms self
  /\ max_repeats self' = max_repeats self.
Proof.
  rewrite wrapper_by_count. cbv zeta. case_bool_decide; simpl; by auto.
Qed.

Lemma wrapper_keeps_bound self now a k w :
  (length (call_history self) <= max_history self)%nat ->
  (length (call_history (wrapper func name self now a k w).1.2)
   <= max_history self)%nat.
Proof.
  intros Hn. destruct (wrapper_tracker self now a k w) as ([->| ->] & _); [done|].
  by apply deque_append_length.
Qed.

(** The deque never grows past [maxlen], whatever is called and whenever:
    a history within its bound stays within it, and the tracker's settings
    are never changed. *)
Theorem history_stays_bounded self calls w :
  (length (call_history self) <= max_history self)%nat ->
  let self' := (call_each func name self calls w).1.2 in
  (length (call_history self') <= max_history self)%nat
  /\ max_history self' = max_history self
  /\ threshold_ms self' = threshold_ms self
  /\ max_repeats self' = max_repeats self.
Proof.
  revert self w. induction calls as [|[[t a] k] calls IH]; intros self w Hn; [done|].
  simpl. pose proof (wrapper_keeps_bound self t a k w Hn) as Hn1.
  destruct (wrapper_tracker self t a k w) as (_ & HN & HT & HM).
  destruct (wrapper func name self t a k w) as [[r self1] w1]. simpl in *.
  rewrite <- HN in Hn1. specialize (IH self1 w1 Hn1).
  destruct (call_each func name self1 calls w1) as [[rs self2] w2]. simpl in *.
  destruct IH as (? & ? & ? & ?). repeat split; congruence.
Qed.

(** A tracker whose [max_repeats] exceeds its [max_history] never raises
    [RepeatedCallError]: the count is bounded by the length of the
    history. *)
Theorem short_history_never_rejects self calls w :
  (length (call_history self) <= max_history self)%nat ->
  Z.of_nat (max_history self) < max_repeats self ->
  Forall (fun r => forall m, r <> RaisedRepeatedCall m)
    (call_each func name self calls w).1.1.
Proof.
  revert self w. induction calls as [|[[t a] k] calls IH]; intros self w Hn HM;
    [by constructor|].
  simpl. pose proof (wrapper_keeps_bound self t a k w Hn) as Hn1.
  destruct (wrapper_tracker self t a k w) as (_ & HN & _ & HM1).
  pose proof (wrapper_by_count func name self t a k w) as Hw. cbv zeta in Hw.
  pose proof (count_le_history self (mkCall name a k t)) as Hc.
  rewrite bool_decide_eq_false_2 in Hw by lia.
  destruct (wrapper func name self t a k w) as [[r self1] w1]. simpl in *.
  rewrite <- HN in Hn1. rewrite <- HN, <- HM1 in HM.
  specialize (IH self1 w1 Hn1 HM).
  destruct (call_each func name self1 calls w1) as [[rs self2] w2]. simpl in *.
  constructor; [|done]. intros m ->. injection Hw as Hr _ _.
  destruct (func a k w) as [[v|e] w']; simpl in Hr; by case_bool_decide.
Qed.

(** Once the latest record is older than the threshold, or when nothing
    is recorded, a tracker with [max_repeats >= 2] lets the call through:
    the function runs, its outcome is handed back and the call is
    recorded. *)
Theorem passes_after_window self now a k w :
  2 <= max_repeats self ->
  (call_history self = []
   \/ exists h p, call_history self = h ++ [p]
                  /\ too_old (threshold_ms self) (mkCall name a k now) p = true) ->
  wrapper func name self now a k w
  = (pass_through (func a k w).1, record_call self (mkCall name a k now),
     (func a k w).2).
Proof.
  intros HM Hold. rewrite wrapper_by_count. cbv zeta.
  assert (count_recent_duplicates self (mkCall name a k now) = 0%nat) as ->.
  { destruct Hold as [Hnil|(h & p & Hh & Hp)].
    - unfold count_recent_duplicates. by rewrite Hnil.
    - by eapply count_after_window. }
  rewrite !bool_decide_eq_false_2 by lia. done.
Qed.

Lemma record_call_prior self a k t a' k' :
  ~ (a = a' /\ k = k') ->
  prior_differs name a' k' (call_history (record_call self (mkCall name a k t))).
Proof.
  intros Hne p Hp. apply deque_append_last in Hp as ->. simpl.
  intros (_ & ? & ?). by apply Hne.
Qed.

(** On a tracker with [max_repeats >= 2], calls of which no two in a row
    have the same arguments are never interfered with, however fast they
    come: each gets the function's own outcome. *)
Theorem alternating_calls_pass self calls w :
  2 <= max_repeats self ->
  alternating calls ->
  match calls with
  | [] => True
  | c :: _ => prior_differs name c.1.2 c.2 (call_history self)
  end ->
  Forall (fun r => interfered r = false) (call_each func name self calls w).1.1.
Proof.
  revert self w. induction calls as [|[[t a] k] calls IH]; intros self w HM Halt Hpre;
    [by constructor|].
  simpl in Hpre. cbn [call_each].
  pose proof (wrapper_by_count func name self t a k w) as Hw. cbv zeta in Hw.
  rewrite count_recent_duplicates_loop, count_loop_stops in Hw by done.
  rewrite !bool_decide_eq_false_2 in Hw by lia. rewrite Hw. clear Hw.
  assert (max_repeats (record_call self (mkCall name a k t)) = max_repeats self)
    as HM1 by done.
  specialize (IH (record_call self (mkCall name a k t)) (func a k w).2).
  destruct (call_each func name (record_call self (mkCall name a k t)) calls
              (func a k w).2) as [[rs self2] w2] eqn:Hrest. simpl in *.
  constructor.
  - by destruct (func a k w).1.
  - apply IH; [done| |].
    + destruct calls as [|c2 calls]; [done|]. by destruct Halt.
    + destruct calls as [|[[t2 a2] k2] calls]; [done|].
      destruct Halt as [Hne _]. simpl in *. by apply record_call_prior.
Qed.
End GuardMore.

Import Agent Scenario.

Lemma passes_after_window_witness :
  let self := (call_repeatedly counting_func "click_element" new_tracker
                 [0%Q; 1%Q; 2%Q] click_args ∅ 0%nat).1.2 in
  (exists h p, call_history self = h ++ [p]
               /\ too_old 30000 (mkCall "click_element" click_args ∅ 33%Q) p = true)
  /\ wrapper counting_func "click_element" self 33%Q click_args ∅ 3%nat
     = (Returned 3%nat, record_call self (mkCall "click_element" click_args ∅ 33%Q),
        4%nat).
Proof.
  intros self.
  assert (exists h p, call_history self = h ++ [p]
            /\ too_old 30000 (mkCall "click_element" click_args ∅ 33%Q) p = true)
    as Hold.
  { exists [mkCall "click_element" click_args ∅ 0%Q;
            mkCall "click_element" click_args ∅ 1%Q],
           (mkCall "click_element" click_args ∅ 2%Q). split; reflexivity. }
  split; [exact Hold|].
  apply (passes_after_window counting_func "click_element" self 33%Q click_args ∅ 3%nat).
  - vm_compute. discriminate.
  - right. exact Hold.
Defined.

Lemma history_stays_bounded_witness :
  let calls := replicate 20 (0%Q, click_args, (∅ : gmap string pyval)) in
  (length (call_history (@new_tracker (list pyval) (gmap string pyval))) <= 15)%nat
  /\ (length (call_history
                (call_each counting_func "click_element" new_tracker calls 0%nat).1.2)
      <= 15)%nat.
Proof.
  intros calls. split; [simpl; lia|].
  apply (history_stays_bounded counting_func "click_element" new_tracker calls 0%nat).
  simpl. lia.
Defined.

Lemma short_history_never_rejects_witness :
  let self := @mkTracker (list pyval) (gmap string pyval) [] 2 30000 3 in
  let calls := replicate 6 (0%Q, click_args, (∅ : gmap string pyval)) in
  Z.of_nat (max_history self) < max_repeats self
  /\ Forall (fun r => forall m, r <> RaisedRepeatedCall m)
       (call_each counting_func "click_element" self calls 0%nat).1.1.
Proof.
  intros self calls. split; [simpl; lia|].
  apply (short_history_never_rejects counting_func "click_element" self calls 0%nat).
  - simpl. lia.
  - simpl. lia.
Defined.

Lemma alternating_calls_pass_witness :
  let calls := [(0%Q, [PStr "//a"], (∅ : gmap string pyval));
                (0%Q, [PStr "//b"], ∅); (0%Q, [PStr "//a"], ∅);
                (0%Q, [PStr "//b"], ∅); (0%Q, [PStr "//a"], ∅)] in
  alternating calls
  /\ Forall (fun r => interfered r = false)
       (call_each counting_func "click_element" new_tracker calls 0%nat).1.1.
Proof.
  intros calls.
  assert (alternating calls) as Halt.
  { simpl. repeat split; intros [Heq _]; discriminate Heq. }
  split; [exact Halt|].
  apply (alternating_calls_pass counting_func "click_element" new_tracker calls 0%nat).
  - simpl. lia.
  - exact Halt.
  - intros p Hp. discriminate Hp.
Defined.

End TrackerMore.

(** ** Locators *)

Module LocatorFacts.
Import Agent More.
Import Stdlib.Strings.Ascii.

Lemma prefix_append (p s : string) : String.prefix p (p +:+ s) = true.
Proof.
  induction p as [|c p IH]; simpl; [by destruct s|].
  by destruct (ascii_dec c c).
Qed.

(** [replace] with a one-character [old]. *)
Lemma replace_single (o : ascii) (new s : string) :
  replace (String o EmptyString) new s
  = match s with
    | EmptyString => EmptyString
    | String c rest =>
        if bool_decide (o = c) then new +:+ replace (String o EmptyString) new rest
        else String c (replace (String o EmptyString) new rest)
    end.
Proof.
  destruct s as [|c rest]; [done|]. unfold replace. simpl.
  destruct (ascii_dec o c) as [->|Hne].
  - rewrite bool_decide_eq_true_2 by done. by destruct rest.
  - by rewrite bool_decide_eq_false_2.
Qed.

(** Whether the character occurs in the string. *)
Lemma str_in_char_cons (c c' : ascii) (s : string) :
  str_in (String c EmptyString) (String c' s)
  = bool_decide (c = c') || str_in (String c EmptyString) s.
Proof.
  simpl. destruct (ascii_dec c c') as [->|Hne].
  - rewrite bool_decide_eq_true_2 by done. by destruct s.
  - by rewrite bool_decide_eq_false_2.
Qed.

Lemma str_in_char_app (c : ascii) (s t : string) :
  str_in (String c EmptyString) (s +:+ t)
  = str_in (String c EmptyString) s || str_in (String c EmptyString) t.
Proof.
  induction s as [|c' s IH].
  - simpl. by destruct t.
  - change (String c' s +:+ t) with (String c' (s +:+ t)).
    rewrite !str_in_char_cons, IH. by rewrite orb_assoc.
Qed.

Lemma str_in_char_nil (c : ascii) : str_in (String c EmptyString) "" = false.
Proof. done. Qed.

(** Replacing a character leaves none of it, when the replacement text
    has none. *)
Lemma replace_removes (o : ascii) (new s : string) :
  str_in (String o EmptyString) new = false ->
  str_in (String o EmptyString) (replace (String o EmptyString) new s) = false.
Proof.
  intros Hnew. induction s as [|c s IH]; [done|].
  rewrite replace_single. case_bool_decide as Hc.
  - by rewrite str_in_char_app, Hnew, IH.
  - by rewrite str_in_char_cons, IH, bool_decide_eq_false_2.
Qed.

(** Replacing another character brings none in, when the replacement text
    has none. *)
Lemma replace_keeps_absent (c o : ascii) (new s : string) :
  str_in (String c EmptyString) new = false ->
  str_in (String c EmptyString) s = false ->
  str_in (String c EmptyString) (replace (String o EmptyString) new s) = false.
Proof.
  intros Hnew. induction s as [|c' s IH]; [done|].
  rewrite str_in_char_cons, orb_false_iff. intros [Hc' Hs].
  rewrite replace_single. destruct (bool_decide (o = c')).
  - by rewrite str_in_char_app, Hnew, IH.
  - by rewrite str_in_char_cons, Hc', IH.
Qed.

Lemma replace_absent (o : ascii) (new s : string) :
  str_in (String o EmptyString) s = false ->
  replace (String o EmptyString) new s = s.
Proof.
  induction s as [|c s IH]; [done|].
  rewrite str_in_char_cons, orb_false_iff. intros [Hc Hs].
  rewrite replace_single, Hc. by rewrite IH.
Qed.

Lemma replace_from_cons (old new : string) (c : ascii) (rest : string) :
  replace_from old new 0 (String c rest)
  = if String.prefix old (String c rest)
    then new +:+ replace_from old new (String.length old - 1) rest
    else String c (replace_from old new 0 rest).
Proof. reflexivity. Qed.

Lemma prefix_cons (a b : ascii) (p s : string) :
  String.prefix (String a p) (String b s)
  = if ascii_dec a b then String.prefix p s else false.
Proof. reflexivity. Qed.

(** The backslash-quote replacement of [clean_xpath]. *)
Lemma unescape_cons (c : ascii) (s : string) :
  c <> "\"%char ->
  replace "\'" "'" (String c s) = String c (replace "\'" "'" s).
Proof.
  intros Hc. unfold replace. rewrite replace_from_cons, prefix_cons.
  by destruct (ascii_dec "\" c) as [<-|_].
Qed.

Lemma unescape_backslash_head (s : string) :
  exists c0 t, replace "\'" "'" (String "\" s) = String c0 t
               /\ (c0 = "'"%char \/ c0 = "\"%char).
Proof.
  unfold replace. rewrite replace_from_cons.
  destruct (String.prefix "\'" (String "\" s)).
  - eexists "'"%char, _. split; [reflexivity|by left].
  - eexists "\"%char, _. split; [reflexivity|by right].
Qed.

Lemma unescape_without_backslash (s : string) :
  str_in "\" s = false -> replace "\'" "'" s = s.
Proof.
  induction s as [|c s IH]; [done|].
  rewrite str_in_char_cons, orb_false_iff. intros [Hc Hs].
  apply bool_decide_eq_false_1 in Hc.
  rewrite unescape_cons by done. by rewrite IH.
Qed.

(** A prefix without backslash or quote is a prefix of the unescaped
    string exactly when it is one of the string. *)
Lemma prefix_unescape (p s : string) :
  str_in "\" p = false -> str_in "'" p = false ->
  String.prefix p (replace "\'" "'" s) = String.prefix p s.
Proof.
  revert s. induction p as [|c p IH]; intros s.
  { intros _ _. generalize (replace "\'" "'" s). intros r. by destruct r, s. }
  rewrite !str_in_char_cons, !orb_false_iff. intros [Hb Hbp] [Hq Hqp].
  apply bool_decide_eq_false_1 in Hb. apply bool_decide_eq_false_1 in Hq.
  destruct s as [|c' s]; [done|].
  destruct (decide (c' = "\"%char)) as [->|Hc'].
  - destruct (unescape_backslash_head s) as (c0 & t & -> & Hc0).
    rewrite !prefix_cons.
    destruct (ascii_dec c c0) as [Hc|_], (ascii_dec c "\") as [Hc'|_];
      try done; destruct Hc0; congruence.
  - rewrite unescape_cons, !prefix_cons by done.
    destruct (ascii_dec c c'); [by apply IH|done].
Qed.

Lemma lstrip_no_backslash (s : string) :
  str_in "\" s = false -> str_in "\" (lstrip "/" s) = false.
Proof.
  induction s as [|c s IH]; [done|]. intros Hs. simpl.
  case_bool_decide; [|done]. apply IH.
  rewrite str_in_char_cons, orb_false_iff in Hs. by destruct Hs.
Qed.

(** Whatever it is given, [clean_xpath] returns a locator that starts
    with ["xpath://"]. *)
Theorem clean_xpath_prefixed (xpath : string) :
  String.prefix "xpath://" (clean_xpath xpath) = true.
Proof.
  unfold clean_xpath. cbv zeta.
  destruct (String.prefix "xpath://" (replace "\'" "'" xpath)) eqn:Hp; [done|].
  apply prefix_append.
Qed.

(** Leading slashes do not matter to [clean_xpath]: for a locator that
    does not already start with ["xpath://"], one more slash in front
    gives the same result, so ["div"], ["/div"] and ["//div"] all become
    ["xpath://div"]. *)
Theorem clean_xpath_drops_leading_slash (xpath : string) :
  String.prefix "xpath://" xpath = false ->
  clean_xpath ("/" +:+ xpath) = clean_xpath xpath.
Proof.
  intros Hp. unfold clean_xpath. cbv zeta.
  change ("/" +:+ xpath) with (String "/" xpath).
  rewrite unescape_cons by done.
  rewrite (prefix_unescape "xpath://" xpath), Hp by done.
  reflexivity.
Qed.

(** On a locator without backslashes, cleaning twice is cleaning once. *)
Theorem clean_xpath_idempotent (xpath : string) :
  str_in "\" xpath = false ->
  clean_xpath (clean_xpath xpath) = clean_xpath xpath.
Proof.
  intros Hb.
  assert (str_in "\" (clean_xpath xpath) = false) as Hb'.
  { unfold clean_xpath. cbv zeta. rewrite unescape_without_backslash by done.
    destruct (String.prefix "xpath://" xpath); [done|].
    rewrite str_in_char_app, lstrip_no_backslash by done. reflexivity. }
  assert (String.prefix "xpath://" (clean_xpath xpath) = true) as Hp.
  { unfold clean_xpath. cbv zeta.
    destruct (String.prefix "xpath://" (replace "\'" "'" xpath)) eqn:E; [done|].
    apply prefix_append. }
  unfold clean_xpath at 1. cbv zeta.
  rewrite unescape_without_backslash by done. by rewrite Hp.
Qed.

(** The relaxed locator has no ["="] left, and a locator with neither
    ["="] nor ["]"] is its own relaxation. *)
Theorem relax_xpath_no_equals (ele_xpath : string) :
  str_in "=" (relax_xpath ele_xpath) = false
  /\ (str_in "=" ele_xpath = false -> str_in "]" ele_xpath = false ->
      relax_xpath ele_xpath = ele_xpath).
Proof.
  unfold relax_xpath. split.
  - apply replace_keeps_absent; [done|]. by apply replace_removes.
  - intros He Hb. rewrite (replace_absent "=") by done. by apply replace_absent.
Qed.

Section LocatorCheck.
Context {W : Type}.
Variable count_eles : string -> W -> (nat + exn) * W.

(** The locator check returns the plan it was given, except in one case:
    the plan's xpath is a string for which the page finds no element,
    while it finds exactly one for the relaxed xpath; then it returns
    the plan with the relaxed xpath, all else unchanged. A relaxed xpath
    that finds nothing, or several elements, leaves the plan as it was. *)
Theorem check_locator_result (parsed_plan plan' : operation) (w w' : W) :
  check_locator count_eles parsed_plan w = (inl plan', w') ->
  action plan' = action parsed_plan
  /\ (plan' = parsed_plan
      \/ exists d ele_xpath w1,
           params parsed_plan = Some (ParamsDict d)
           /\ d !! "xpath" = Some (PStr ele_xpath)
           /\ count_eles (clean_xpath ele_xpath) w = (inl 0%nat, w1)
           /\ count_eles (clean_xpath (relax_xpath ele_xpath)) w1 = (inl 1%nat, w')
           /\ plan' = {| action := action parsed_plan;
                         params := Some (ParamsDict
                                    (<[ "xpath" := PStr (relax_xpath ele_xpath) ]> d)) |}).
Proof.
  unfold check_locator.
  destruct (params parsed_plan) as [[d|s|]|] eqn:Hparams;
    try (intros [= <- <-]; by auto); try done.
  - destruct (d !! "xpath") as [[| |x| |]|] eqn:Hx;
      try (intros [= <- <-]; by auto); try done.
    destruct (count_eles (clean_xpath x) w) as [[n|e] w1] eqn:H1; [|done].
    destruct (Nat.eqb_spec n 0) as [->|Hn]; [|intros [= <- <-]; by auto].
    destruct (count_eles (clean_xpath (relax_xpath x)) w1) as [[n'|e] w2] eqn:H2;
      [|done].
    destruct (Nat.eqb_spec n' 1) as [->|Hn']; [|intros [= <- <-]; by auto].
    intros [= <- <-]. unfold with_xpath. rewrite Hparams. split; [done|].
    right. by exists d, x, w1.
  - destruct (str_in "xpath" s); [done|]. intros [= <- <-]. by auto.
Qed.
End LocatorCheck.

Lemma clean_xpath_drops_leading_slash_witness :
  String.prefix "xpath://" "/div[@id='a']" = false
  /\ clean_xpath "//div[@id='a']" = clean_xpath "/div[@id='a']".
Proof.
  split; [reflexivity|].
  apply (clean_xpath_drops_leading_slash "/div[@id='a']"). reflexivity.
Defined.

Lemma clean_xpath_idempotent_witness :
  str_in "\" "//span[text()='x']" = false
  /\ clean_xpath (clean_xpath "//span[text()='x']") = clean_xpath "//span[text()='x']".
Proof.
  split; [reflexivity|].
  apply (clean_xpath_idempotent "//span[text()='x']"). reflexivity.
Defined.

Lemma relax_xpath_no_equals_witness :
  str_in "=" "//div" = false /\ str_in "]" "//div" = false
  /\ relax_xpath "//div" = "//div".
Proof.
  split; [reflexivity|]. split; [reflexivity|].
  destruct (relax_xpath_no_equals "//div") as [_ Hsame].
  apply Hsame; reflexivity.
Defined.

(** A page on which only the relaxed form of the locator finds its one
    element. *)
Lemma check_locator_result_witness :
  let count_eles (locator : string) (w : nat) : (nat + exn) * nat :=
    (inl (if bool_decide (locator = "xpath://a[text()contains(., 'x')]")
          then 1%nat else 0%nat), S w) in
  let plan := {| action := PStr "click_element";
                 params := Some (ParamsDict {[ "xpath" := PStr "//a[text()='x']" ]}) |} in
  let plan' := {| action := PStr "click_element";
                  params := Some (ParamsDict
                             {[ "xpath" := PStr "//a[text()contains(., 'x')]" ]}) |} in
  check_locator count_eles plan 0%nat = (inl plan', 2%nat)
  /\ action plan' = action plan.
Proof.
  intros count_eles plan plan'.
  assert (check_locator count_eles plan 0%nat = (inl plan', 2%nat)) as Hcheck
    by (vm_compute; reflexivity).
  split; [exact Hcheck|].
  exact (proj1 (check_locator_result count_eles plan plan' 0%nat 2%nat Hcheck)).
Defined.

End LocatorFacts.

(** ** The executor: validation and dispatch *)

Module ExecutorMore.
Import Agent.
Import More.

Section Dispatch.
Context {W Env : Type} `{!Externals W Env}.

(** The validation loop stops at the first required parameter that the
    dictionary lacks and names it in its [ValueError], after [str] of the
    action, whatever kind of value the action is; it returns when there
    is none. *)
Theorem validation_names_first_missing (a : pyval) (d : gmap string pyval)
    (required : list string) :
  _validate_params_by_config a (ParamsDict d) required
  = match list_find (fun param => d !! param = None) required with
    | None => None
    | Some (_, param) =>
        Some (Exn "ValueError" (str_of_pyval a +:+ "操作必须提供" +:+ param +:+ "参数"))
    end.
Proof.
  induction required as [|param rest IH]; [done|].
  cbn [_validate_params_by_config param_missing list_find].
  case_bool_decide as Hm.
  - by rewrite decide_True.
  - rewrite decide_False by done. rewrite IH.
    by destruct (list_find _ rest) as [[i p]|].
Qed.

(** The earlier [_validate_params] and the table-driven validation give
    the same verdict, with the same message, for every action of the
    dispatch table but one: [click_to_upload], which the earlier method
    lets through whatever its parameters are. *)
Theorem old_validation_agrees (name : string) (cfg : op_config)
    (p : params_value) :
  _operation_map !! name = Some cfg ->
  _validate_params (PStr name) p
  = if bool_decide (name = "click_to_upload") then None
    else _validate_params_by_config (PStr name) p (required_params cfg).
Proof.
  intros Hcfg. apply elem_of_list_to_map_2 in Hcfg.
  repeat (apply elem_of_cons in Hcfg as [[= -> ->]|Hcfg]);
    try (by apply elem_of_nil in Hcfg);
    destruct p as [d|s|]; try reflexivity;
    unfold _validate_params, require;
    cbn [_validate_params_by_config required_params param_missing str_of_pyval];
    repeat (rewrite bool_decide_eq_true_2 by (repeat constructor || done));
    repeat (rewrite bool_decide_eq_false_2 by (by intros H; repeat (apply elem_of_cons in H as [H|H]; [done|]); apply elem_of_nil in H));
    repeat (rewrite bool_decide_eq_false_2 by done);
    repeat (destruct (bool_decide (_ !! _ = None)); try reflexivity);
    repeat (destruct (negb _); try reflexivity).
Qed.

(** A decorated method by the value of its tracker's [repeat_count]. *)
Lemma browser_method_decorated (m : method) (a : list pyval) b w :
  decorated m = true ->
  let now := (clock w).1 in
  let w0 := (clock w).2 in
  let call := Tracker.mkCall (method_name m) a (∅ : gmap string pyval) now in
  let n := Z.of_nat (Tracker.count_recent_duplicates (trackers b m) call) in
  let msg := Tracker.mkWarning (method_name m)
               (Tracker.threshold_ms (trackers b m)) n a ∅ in
  browser_method m a b w
  = if bool_decide (Tracker.max_repeats (trackers b m) <= n)
    then (inr (RepeatedCallError msg), set_tracker m (trackers b m) b, w0)
    else (match (page_method m a w0).1 with
          | inl v => inl (if bool_decide (n = Tracker.max_repeats (trackers b m) - 1)
                          then WarningText msg else Value v)
          | inr e => inr e
          end,
          set_tracker m (Tracker.record_call (trackers b m) call) b,
          (page_method m a w0).2).
Proof.
  intros Hdec now w0 call n msg. unfold browser_method. rewrite Hdec.
  subst now w0. destruct (clock w) as [t w0] eqn:Hclock.
  cbn [fst snd] in *. rewrite TrackerFacts.wrapper_by_count.
  fold call. fold n. fold msg.
  destruct (bool_decide (Tracker.max_repeats (trackers b m) <= n)); [done|].
  destruct (page_method m a w0) as [[v|e] w1]; cbn [fst snd];
    by destruct (bool_decide (n = Tracker.max_repeats (trackers b m) - 1)).
Qed.

Lemma set_tracker_same (m : method) b m' :
  trackers (set_tracker m (trackers b m) b) m' = trackers b m'.
Proof. cbn. case_bool_decide; by subst. Qed.

(** [exec_async] on an operation that passes the table lookup, the
    validation and the argument mapping. *)
Lemma exec_async_dispatch op (cfg : op_config) (call_arguments : list pyval) b w :
  lookup_action (action op) = Some cfg ->
  _validate_params_by_config (action op) (normalise_params op) (required_params cfg)
  = None ->
  args_map cfg (normalise_params op) = Some call_arguments ->
  exec_async_body op b w
  = let r := browser_method (cfg_method cfg) call_arguments b w in
    (match r.1.1 with
     | inl result => result
     | inr e => ErrorDict (exn_class e) (ExecFailedMsg (action op) e)
                  (Some (action op, normalise_params op))
     end, r.1.2, r.2).
Proof.
  intros Hcfg Hvalid Hargs. unfold exec_async_body. cbv zeta.
  rewrite Hcfg, Hvalid, Hargs.
  by destruct (browser_method _ _ b w) as [[[result|e] b'] w'].
Qed.

(** The executor's turn when the operation fails with an error type
    that is not transient. *)
Lemma step_execute_failed s b w op :
  planned_operation s = Some op ->
  hash_error (action op) = None ->
  is_error (exec_async_body op b w).1.1 = true ->
  transient (error_type_of (exec_async_body op b w).1.1) = false ->
  let st' := step (mkFlow (Running execute_node) s b w) in
  curr st' = Running plan_node
  /\ browser st' = (exec_async_body op b w).1.2
  /\ world st' = (exec_async_body op b w).2
  /\ operation_history (store st') = operation_history s
  /\ operation_result (store st') = Some (exec_async_body op b w).1.1
  /\ retry_count (store st') = Some (default 0 (retry_count s) + 1).
Proof.
  intros Hop Hhash Herr Htr st'. subst st'.
  rewrite (AgentFacts.step_execute s b w op Hop Hhash). cbv zeta.
  destruct (AgentFacts.execute_prep_async_keeps s) as (_ & _ & Hh & _ & Hr).
  destruct (AgentFacts.execute_post_async_fields (execute_prep_async s).2 op
              (exec_async_body op b w).1.1 (exec_async_body op b w).2)
    as (_ & _ & Hres & _ & Hhist & Hretry & _ & _ & Hw).
  rewrite Herr, Htr in *. cbn [andb] in Hw.
  unfold execute_target. rewrite Herr, Htr. cbn [andb curr browser world store].
  repeat split; try done; congruence.
Qed.

(** An action that is not one of the eleven names of the dispatch table
    is dealt with before anything else happens, in one of two ways. One
    that can be hashed ([None], a number, a string) is answered with an
    [unknown_action] error and the flow goes back to the planner. A list
    or a dictionary makes the membership test raise [TypeError], which
    no handler catches: the flow stops with that exception. Either way
    the browser object and the page are as they were and nothing is
    added to the history. *)
Theorem unknown_action_replans s b w op :
  planned_operation s = Some op ->
  action op ∉ PStr <$> ["click_element"; "click_to_upload"; "input_text";
                        "send_keys"; "scroll_down"; "scroll_up"; "go_to_url";
                        "go_back"; "open_tab"; "close_tab"; "switch_tab"] ->
  let st' := step (mkFlow (Running execute_node) s b w) in
  match hash_error (action op) with
  | None =>
      exec_async op b w
      = (inl (ErrorDict "unknown_action" (UnknownActionMsg (action op)) None), b, w)
      /\ curr st' = Running plan_node
  | Some text =>
      exec_async op b w = (inr (Exn "TypeError" text), b, w)
      /\ curr st' = Crashed (Exn "TypeError" text)
  end
  /\ browser st' = b /\ world st' = w
  /\ operation_history (store st') = operation_history s.
Proof.
  intros Hop Hname st'.
  destruct (hash_error (action op)) as [text|] eqn:Hhash.
  - subst st'. rewrite (AgentFacts.step_execute_unhashable s b w op text Hop Hhash).
    destruct (AgentFacts.execute_prep_async_keeps s) as (_ & _ & Hh & _).
    unfold exec_async. rewrite Hhash. by repeat split.
  - assert (exec_async_body op b w
            = (ErrorDict "unknown_action" (UnknownActionMsg (action op)) None, b, w))
      as Hexec.
    { unfold exec_async_body. cbv zeta.
      assert (lookup_action (action op) = None) as ->; [|done].
      destruct (action op) as [| |name| |]; try done.
      apply not_elem_of_list_to_map_1. intros Hin. apply Hname.
      by apply (list_elem_of_fmap_2 PStr) in Hin. }
    rewrite (AgentFacts.exec_async_hashable op b w Hhash).
    destruct (step_execute_failed s b w op Hop Hhash) as (? & ? & ? & ? & _);
      rewrite ?Hexec; try done.
    rewrite Hexec in *. done.
Qed.

(** A call that the guard rejects is never retried and never recorded:
    whatever the retry count, the executor reports an error of type
    [RepeatedCallError] and the flow goes back to the planner; the method
    body is not run (the world has only had its clock read) and every
    tracker is as it was. *)
Theorem guard_rejection_replans s b w op (cfg : op_config)
    (call_arguments : list pyval) :
  planned_operation s = Some op ->
  lookup_action (action op) = Some cfg ->
  _validate_params_by_config (action op) (normalise_params op) (required_params cfg)
  = None ->
  args_map cfg (normalise_params op) = Some call_arguments ->
  decorated (cfg_method cfg) = true ->
  let m := cfg_method cfg in
  let call := Tracker.mkCall (method_name m) call_arguments
                (∅ : gmap string pyval) (clock w).1 in
  Tracker.max_repeats (trackers b m)
  <= Z.of_nat (Tracker.count_recent_duplicates (trackers b m) call) ->
  let st' := step (mkFlow (Running execute_node) s b w) in
  curr st' = Running plan_node
  /\ error_type_of <$> operation_result (store st') = Some "RepeatedCallError"
  /\ operation_history (store st') = operation_history s
  /\ (forall m', trackers (browser st') m' = trackers b m')
  /\ world st' = (clock w).2.
Proof.
  intros Hop Hcfg Hvalid Hargs Hdec m call Hfull st'.
  pose proof (exec_async_dispatch op cfg call_arguments b w Hcfg Hvalid Hargs) as Hexec.
  rewrite (browser_method_decorated _ _ b w Hdec) in Hexec. cbv zeta in Hexec.
  fold m in Hexec. fold call in Hexec.
  rewrite bool_decide_eq_true_2 in Hexec by done. cbn [fst snd] in Hexec.
  destruct (step_execute_failed s b w op Hop
              (AgentFacts.lookup_action_hashable _ _ Hcfg))
    as (Hc & Hb & Hw & Hh & Hr & _);
    rewrite ?Hexec; try done.
  rewrite Hexec in *. cbn [fst snd] in *.
  repeat split; try done.
  - fold st' in Hr. by rewrite Hr.
  - intros m'. fold st' in Hb. rewrite Hb. apply set_tracker_same.
Qed.

(** The guard's warning counts as a success. On the call for which the
    tracker counts [max_repeats - 1] recent duplicates the method body
    runs, its return value is dropped, and the executor receives the
    warning text; the flow goes on to the observer, the warning is
    recorded in the history as the operation's result and the retry
    count is reset. *)
Theorem guard_warning_recorded_as_success s b w op (cfg : op_config)
    (call_arguments : list pyval) (h : list history_record) (v : drv_value) w1 :
  planned_operation s = Some op ->
  operation_history s = Some h ->
  lookup_action (action op) = Some cfg ->
  _validate_params_by_config (action op) (normalise_params op) (required_params cfg)
  = None ->
  args_map cfg (normalise_params op) = Some call_arguments ->
  decorated (cfg_method cfg) = true ->
  let m := cfg_method cfg in
  let call := Tracker.mkCall (method_name m) call_arguments
                (∅ : gmap string pyval) (clock w).1 in
  Z.of_nat (Tracker.count_recent_duplicates (trackers b m) call)
  = Tracker.max_repeats (trackers b m) - 1 ->
  page_method m call_arguments (clock w).2 = (inl v, w1) ->
  let st' := step (mkFlow (Running execute_node) s b w) in
  exists msg,
    curr st' = Running observe_node
    /\ operation_result (store st') = Some (WarningText msg)
    /\ operation_history (store st')
       = Some (h ++ [mkRecord (record_format op) (WarningText msg)])
    /\ retry_count (store st') = Some 0
    /\ trackers (browser st') m = Tracker.record_call (trackers b m) call
    /\ world st' = w1.
Proof.
  intros Hop Hh Hcfg Hvalid Hargs Hdec m call Hcount Hpage st'.
  pose proof (exec_async_dispatch op cfg call_arguments b w Hcfg Hvalid Hargs) as Hexec.
  rewrite (browser_method_decorated _ _ b w Hdec) in Hexec. cbv zeta in Hexec.
  fold m in Hexec. fold call in Hexec. rewrite Hpage, Hcount in Hexec.
  rewrite bool_decide_eq_false_2 in Hexec by lia.
  rewrite bool_decide_eq_true_2 in Hexec by done. cbn [fst snd] in Hexec.
  eexists. subst st'.
  rewrite (AgentFacts.step_execute s b w op Hop
             (AgentFacts.lookup_action_hashable _ _ Hcfg)). cbv zeta.
  destruct (AgentFacts.execute_prep_async_keeps s) as (_ & _ & Hh' & _ & _).
  destruct (AgentFacts.execute_post_async_fields (execute_prep_async s).2 op
              (exec_async_body op b w).1.1 (exec_async_body op b w).2)
    as (_ & _ & Hres & _ & Hhist & Hretry & _ & _ & Hw).
  rewrite Hexec in *. cbn [fst snd is_error andb] in *.
  unfold execute_target. cbn [is_error curr store browser world].
  rewrite Hh', Hh in Hhist.
  repeat split; try done.
  cbn. by rewrite bool_decide_eq_true_2.
Qed.

(** Each decorated method has a tracker of its own: calls of one method,
    however many, leave the tracker of every other method as it was, so
    a rejected click does not count against [go_to_url]. *)
Theorem trackers_are_per_method (m m' : method) (a : list pyval) (n : nat) b w :
  m' <> m ->
  trackers (invoke_repeatedly m a n b w).1.2 m' = trackers b m'.
Proof.
  intros Hm. revert b w. induction n as [|n IH]; intros b w; [done|].
  cbn [invoke_repeatedly].
  destruct (browser_method m a b w) as [[r b1] w1] eqn:Hcall.
  specialize (IH b1 w1).
  destruct (invoke_repeatedly m a n b1 w1) as [[rs b2] w2]. cbn [fst snd] in *.
  rewrite IH. unfold browser_method in Hcall.
  destruct (decorated m).
  - destruct (clock w) as [t w0].
    destruct (Tracker.wrapper _ _ _ _ _ _ _) as [[r' t'] w'].
    injection Hcall as _ <- _. cbn. by rewrite bool_decide_eq_false_2.
  - destruct (page_method m a w) as [o w']. by injection Hcall as _ <- _.
Qed.

End Dispatch.

Lemma old_validation_agrees_witness :
  _operation_map !! "input_text"
  = Some (mkConfig input_text ["xpath"; "text"] []
            (get_all [("xpath", PNone); ("text", PNone)]))
  /\ _validate_params (PStr "input_text") (ParamsDict {[ "xpath" := PStr "//input" ]})
     = Some (Exn "ValueError" "input_text操作必须提供text参数").
Proof.
  assert (_operation_map !! "input_text"
          = Some (mkConfig input_text ["xpath"; "text"] []
                    (get_all [("xpath", PNone); ("text", PNone)]))) as Hcfg
    by reflexivity.
  split; [exact Hcfg|].
  rewrite (old_validation_agrees "input_text" _ _ Hcfg). reflexivity.
Defined.

Lemma unknown_action_replans_witness :
  let st := mkFlow (Running execute_node) (about_to_execute Scenario.hover_plan)
              new_browser 7%nat in
  action Scenario.hover_plan = PStr "hover"
  /\ curr (@step _ _ Scenario.quiet_world st) = Running plan_node
  /\ world (@step _ _ Scenario.quiet_world st) = 7%nat
  /\ operation_history (store (@step _ _ Scenario.quiet_world st)) = Some [].
Proof.
  intros st. split; [reflexivity|].
  destruct (@unknown_action_replans _ _ Scenario.quiet_world
              (about_to_execute Scenario.hover_plan) new_browser 7%nat
              Scenario.hover_plan)
    as ((_ & Hcurr) & _ & Hworld & Hhist).
  - reflexivity.
  - intros H%list_elem_of_In. cbn in H. intuition discriminate.
  - repeat apply conj; [exact Hcurr|exact Hworld|exact Hhist].
Defined.

Lemma guard_rejection_replans_witness :
  let st := mkFlow (Running execute_node) (about_to_execute click_plan)
              Scenario.after_three_clicks 3%nat in
  lookup_action (action click_plan)
  = Some (mkConfig click_element ["xpath"] [] (get_all [("xpath", PNone)]))
  /\ curr (@step _ _ Scenario.quiet_world st) = Running plan_node
  /\ operation_history (store (@step _ _ Scenario.quiet_world st)) = Some []
  /\ world (@step _ _ Scenario.quiet_world st) = 3%nat.
Proof.
  intros st.
  assert (lookup_action (action click_plan)
          = Some (mkConfig click_element ["xpath"] [] (get_all [("xpath", PNone)])))
    as Hcfg by reflexivity.
  split; [exact Hcfg|].
  destruct (@guard_rejection_replans _ _ Scenario.quiet_world
              (about_to_execute click_plan) Scenario.after_three_clicks 3%nat
              click_plan _ Scenario.click_args eq_refl Hcfg)
    as (Hcurr & _ & Hhist & _ & Hworld).
  - reflexivity.
  - reflexivity.
  - reflexivity.
  - by vm_compute.
  - repeat apply conj; [exact Hcurr|exact Hhist|exact Hworld].
Defined.

Lemma guard_warning_recorded_as_success_witness :
  let st := mkFlow (Running execute_node) (about_to_execute click_plan)
              after_two_clicks 2%nat in
  @page_method _ _ Scenario.quiet_world click_element Scenario.click_args 2%nat
  = (inl DNone, 3%nat)
  /\ exists msg,
       curr (@step _ _ Scenario.quiet_world st) = Running observe_node
       /\ operation_history (store (@step _ _ Scenario.quiet_world st))
          = Some [mkRecord click_plan (WarningText msg)]
       /\ world (@step _ _ Scenario.quiet_world st) = 3%nat.
Proof.
  intros st. split; [reflexivity|].
  destruct (@guard_warning_recorded_as_success _ _ Scenario.quiet_world
              (about_to_execute click_plan) after_two_clicks 2%nat
              click_plan
              (mkConfig click_element ["xpath"] [] (get_all [("xpath", PNone)]))
              Scenario.click_args [] DNone 3%nat)
    as (msg & Hcurr & _ & Hhist & _ & _ & Hworld);
    try reflexivity.
  exists msg. repeat apply conj; [exact Hcurr|exact Hhist|exact Hworld].
Defined.

Lemma trackers_are_per_method_witness :
  go_to_url <> click_element
  /\ trackers (@invoke_repeatedly _ _ Scenario.quiet_world click_element
                 Scenario.click_args 4 new_browser 0%nat).1.2 go_to_url
     = Tracker.new_tracker.
Proof.
  split; [done|].
  apply (@trackers_are_per_method _ _ Scenario.quiet_world click_element go_to_url
           Scenario.click_args 4 new_browser 0%nat).
  done.
Defined.

End ExecutorMore.

(** ** Runs of the flow *)

Module FlowMore.
Import Agent.
Import More.

Section RunFacts.
Context {W Env : Type} `{!Externals W Env}.
Implicit Types (s : @shared Env) (st : @flow_state W Env) (w : W).

Lemma execute_keeps_final_message s op (exec_res : exec_result) w :
  final_message (execute_post_async (execute_prep_async s).2 op exec_res w).1.2
  = final_message s.
Proof.
  unfold execute_post_async, execute_prep_async.
  destruct s as [t be [po|] ores [oh|] [rc|] [lfo|] it fm], (is_error exec_res);
    cbn; try destruct (transient _ && _); cbn; done.
Qed.

Lemma execute_prep_keeps_final_message s :
  final_message (execute_prep_async s).2 = final_message s.
Proof.
  unfold execute_prep_async.
  by destruct s as [t be [po|] ores oh [rc|] [lfo|] it fm].
Qed.

Lemma observe_post_async_message s (res : observation) :
  let q := observe_post_async s (Some res) in
  if bool_decide (q.1 = "finish") then is_Some (final_message q.2)
  else final_message q.2 = final_message s.
Proof.
  unfold observe_post_async.
  destruct (affirms (completion_result res)); [by eexists|].
  destruct (cap_reached (obs_iteration res)); [by eexists|done].
Qed.

Lemma initial_state_well_formed (t : string) w : well_formed (Env := Env) t (initial_state t w).
Proof.
  repeat split; try done.
  by exists [].
Qed.

Lemma observe_prep_async_fields s :
  let s1 := (observe_prep_async s).2 in
  iteration s1 = Some (default 0 (iteration s) + 1)
  /\ task s1 = task s
  /\ operation_history s1 = operation_history s
  /\ final_message s1 = final_message s
  /\ retry_count s1 = retry_count s.
Proof. done. Qed.

Lemma step_well_formed (t : string) st : well_formed t st -> well_formed t (step st).
Proof.
  destruct st as [c s b w]. destruct c as [n| |e]; [|done|done].
  intros (Htask & (h & Hh & Hlen) & Hpos & Hfin & Hmsg & Hplan).
  unfold observing, finishing, iterations in *. cbn [curr store] in *.
  destruct n.
  - rewrite AgentFacts.step_get_env.
    destruct (read_browser_env w) as [[env|e] w'];
      unfold well_formed, observing, finishing, iterations; cbn;
      repeat split; try done; by exists h.
  - rewrite AgentFacts.step_plan.
    destruct (plan_prompt s) as [p|];
      unfold well_formed, observing, finishing, iterations; cbn;
      repeat split; try done; by exists h.
  - destruct Hplan as [op Hop]; [done|].
    destruct (AgentFacts.execute_prep_async_keeps s) as (Hi1 & Ht1 & Hh1 & Hp1 & _).
    destruct (hash_error (action op)) as [text|] eqn:Hhash.
    { rewrite (AgentFacts.step_execute_unhashable s b w op text Hop Hhash).
      unfold well_formed, observing, finishing, iterations. cbn [curr store].
      rewrite Hi1, Ht1, Hh1, execute_prep_keeps_final_message.
      repeat split; try done. by exists h. }
    rewrite (AgentFacts.step_execute s b w op Hop Hhash). cbv zeta.
    destruct (AgentFacts.execute_post_async_fields (execute_prep_async s).2 op
                (exec_async_body op b w).1.1 (exec_async_body op b w).2)
      as (Hi & Ht & _ & _ & Hhist & _ & _ & Hpl & _).
    pose proof (execute_keeps_final_message s op (exec_async_body op b w).1.1
                  (exec_async_body op b w).2) as Hfm.
    unfold well_formed, observing, finishing, iterations, execute_target.
    cbn [curr store]. rewrite Hi, Hi1, Ht, Ht1, Hhist, Hh1, Hh, Hfm.
    destruct (is_error (exec_async_body op b w).1.1) eqn:Herr.
    + assert (is_Some (planned_operation
                (execute_post_async (execute_prep_async s).2 op
                   (exec_async_body op b w).1.1 (exec_async_body op b w).2).1.2)) as Hsome.
      { rewrite Hpl by done. rewrite Hp1, Hop. by eexists. }
      destruct (transient _ && _); repeat split; try done; by exists h.
    + repeat split; try done.
      eexists. split; [reflexivity|]. rewrite length_app. cbn. lia.
  - rewrite AgentFacts.step_observe. cbv zeta.
    destruct (observe_exec_async (observe_prep_async s).1 w) as [[res|e] w'].
    + destruct (AgentFacts.observe_post_async_keeps (observe_prep_async s).2 res)
        as (Hi & Ht & Hhist & _).
      pose proof (observe_post_async_message (observe_prep_async s).2 res) as Hfm.
      cbv zeta in Hfm.
      destruct (observe_prep_async_fields s) as (Hi1 & Ht1 & Hh1 & Hfm1 & _).
      unfold well_formed, observing, finishing, iterations. cbn [curr store].
      rewrite Hi, Ht, Hhist, Hi1, Ht1, Hh1.
      destruct (bool_decide ((observe_post_async (observe_prep_async s).2
                                (Some res)).1 = "finish"));
        cbn [curr default from_option id];
        repeat split; try done; try lia; try congruence;
        exists h; split; [done|lia| done|lia].
    + destruct (observe_prep_async_fields s) as (Hi1 & Ht1 & Hh1 & Hfm1 & _).
      unfold well_formed, observing, finishing, iterations. cbn [curr store].
      rewrite Hi1, Ht1, Hh1, Hfm1. cbn [default from_option id].
      repeat split; try done; try lia. exists h. split; [done|lia].
  - rewrite AgentFacts.step_finish. cbv zeta.
    unfold well_formed, observing, finishing, iterations. cbn.
    repeat split; try done; try (by apply Hfin); by exists h.
Qed.

Lemma run_well_formed (t : string) (fuel : nat) st :
  well_formed t st -> well_formed t (run fuel st).
Proof.
  revert st. induction fuel as [|fuel IH]; intros st Hst; [done|].
  cbn [run]. by apply IH, step_well_formed.
Qed.

Lemma run_stopped (fuel : nat) st :
  (forall n, curr st <> Running n) -> run fuel st = st.
Proof.
  intros Hst. induction fuel as [|fuel IH]; [done|].
  cbn [run]. unfold step. by destruct (curr st) as [n| |e]; [destruct (Hst n)|..].
Qed.

Lemma run_node_retry_count (n : node) st :
  n <> execute_node ->
  retry_count (run_node n st).1.1.2 = retry_count (store st).
Proof.
  intros Hn. destruct n; [| |done| |]; unfold run_node.
  - unfold get_env_run. by destruct (read_browser_env _) as [[env|e] w'].
  - unfold plan_run. destruct (plan_prompt _) as [p|]; [|done].
    by destruct (plan_attempts _ _ _ _).
  - unfold observe_run.
    destruct (observe_prep_async (store st)) as [pr s1] eqn:Hprep.
    assert (retry_count s1 = retry_count (store st)) as Hs1
      by (unfold observe_prep_async in Hprep; by injection Hprep as _ <-).
    destruct (observe_exec_async pr _) as [[res|e] w']; [|done].
    unfold observe_post_async.
    destruct (affirms _); [done|]. by destruct (cap_reached _).
  - unfold finish_run. by destruct (finish_exec_async _ _ _).
Qed.

Lemma step_retry_count st :
  default 0 (retry_count (store (step st)))
  = errors_since_success (event st) (default 0 (retry_count (store st))).
Proof.
  destruct (curr st) as [n| |e] eqn:Hc;
    [|unfold step, event; by rewrite Hc..].
  destruct (AgentFacts.step_and_event st n Hc) as [-> ->].
  destruct (decide (n = execute_node)) as [->|Hn].
  - cbn [run_node].
    destruct (AgentFacts.execute_prep_async_keeps (store st)) as (_ & _ & _ & _ & Hr1).
    destruct (planned_operation (store st)) as [op|] eqn:Hop;
      [destruct (hash_error (action op)) as [text|] eqn:Hhash|].
    + by rewrite (AgentFacts.execute_run_unhashable _ _ _ op text Hop Hhash).
    + rewrite (AgentFacts.execute_run_planned _ _ _ op Hop Hhash). cbv zeta. cbn [fst snd].
      destruct (AgentFacts.execute_post_async_fields (execute_prep_async (store st)).2 op
                  (exec_async_body op (browser st) (world st)).1.1
                  (exec_async_body op (browser st) (world st)).2)
        as (_ & _ & _ & Hact & _ & Hretry & _).
      rewrite Hact, Hretry, Hr1. unfold errors_since_success.
      cbn [fold_left fst snd default from_option id].
      rewrite bool_decide_eq_true_2 by done.
      destruct (is_error _); [|done].
      rewrite bool_decide_eq_false_2; [done|].
      match goal with |- (if ?c then _ else _) <> _ => by destruct c end.
    + unfold execute_run, execute_prep_async. by rewrite Hop.
  - rewrite run_node_retry_count by done.
    destruct (run_node n st).1.1.1 as [act|e]; [|done].
    unfold errors_since_success. cbn [fold_left fst snd].
    by rewrite bool_decide_eq_false_2.
Qed.

(** The retry count is the number of executor errors since the executor
    last returned ["success"], counted over all plans and all kinds of
    error: neither a new plan nor a change of error type resets it. *)
Theorem retry_count_counts_errors (fuel : nat) st :
  default 0 (retry_count (store (run fuel st)))
  = errors_since_success (trace fuel st) (default 0 (retry_count (store st))).
Proof.
  revert st. induction fuel as [|fuel IH]; intros st; [done|].
  cbn [run trace]. rewrite IH, step_retry_count.
  unfold errors_since_success. by rewrite fold_left_app.
Qed.

(** In a run that [main] starts, the history has one record for each
    round the observer has counted, and one more while the observer is
    due; it never holds more than thirty records. *)
Theorem history_length_is_iteration (the_task : string) w (fuel : nat) :
  let st := run fuel (initial_state the_task w) in
  exists h,
    operation_history (store st) = Some h
    /\ Z.of_nat (length h)
       = iterations (store st)
         + match curr st with Running observe_node => 1 | _ => 0 end
    /\ (length h <= 30)%nat.
Proof.
  intros st.
  destruct (run_well_formed the_task fuel _ (initial_state_well_formed the_task w))
    as (_ & (h & Hh & Hlen) & _).
  fold st in Hh, Hlen. exists h. repeat split; try done.
  assert (within_cap st) as Hcap.
  { apply AgentFacts.run_within_cap. unfold within_cap, iterations. cbn. lia. }
  unfold observing in Hlen. unfold within_cap in Hcap.
  destruct (curr st) as [[]| |e]; lia.
Qed.

(** The observer and the finish node always find a history with at
    least one record in a run that [main] starts, so neither takes its
    early return for an empty history. *)
Theorem judged_history_is_never_empty (the_task : string) w (fuel : nat) :
  let st := run fuel (initial_state the_task w) in
  curr st = Running observe_node \/ curr st = Running finish_node \/ curr st = Ended ->
  exists r h, operation_history (store st) = Some (r :: h).
Proof.
  intros st Hat.
  destruct (run_well_formed the_task fuel _ (initial_state_well_formed the_task w))
    as (_ & (h & Hh & Hlen) & Hpos & Hfin & _).
  fold st in Hh, Hlen, Hpos, Hfin. unfold observing, finishing in *.
  destruct h as [|r h]; [|by exists r, h].
  cbn in Hlen. destruct Hat as [Hc|[Hc|Hc]]; rewrite Hc in *;
    [lia|specialize (Hfin eq_refl); lia..].
Qed.

(** The final message is written at the end of the run only: it is
    absent for as long as the snapshot, planning, execution or
    observation node is due, also after a crash, and present once the
    observer has sent the flow to the finish node. *)
Theorem final_message_written_at_the_end (the_task : string) w (fuel : nat) :
  let st := run fuel (initial_state the_task w) in
  match curr st with
  | Running finish_node | Ended => is_Some (final_message (store st))
  | _ => final_message (store st) = None
  end.
Proof.
  intros st.
  destruct (run_well_formed the_task fuel _ (initial_state_well_formed the_task w))
    as (_ & _ & _ & _ & Hmsg & _).
  fold st in Hmsg. unfold finishing in Hmsg.
  by destruct (curr st) as [[]| |e].
Qed.

Lemma plan_attempts_hashable (remaining attempt : nat) (p : prompt Env) w :
  plans_hashable ->
  hash_error (action (plan_attempts remaining attempt p w).1) = None.
Proof.
  intros Hplans. revert attempt w.
  induction remaining as [|remaining IH]; intros attempt w; [done|].
  cbn [plan_attempts]. destruct (call_llm p w) as [[reply|e] w1].
  - pose proof (Hplans reply w1) as Hreply.
    destruct (read_plan reply w1) as [[op| |e] w2]; cbn [fst] in Hreply.
    + by apply Hreply.
    + destruct (attempt <? max_retries - 1)%nat; [apply IH|done].
    + destruct (attempt <? max_retries - 1)%nat; [apply IH|done].
  - destruct (attempt <? max_retries - 1)%nat; [apply IH|done].
Qed.

Lemma step_keeps_running (t : string) st :
  t <> "" -> snapshot_succeeds -> completion_answered -> plans_hashable ->
  task (store st) = Some t -> executable st ->
  (forall e, curr st <> Crashed e) ->
  (forall e, curr (step st) <> Crashed e) /\ executable (step st).
Proof.
  intros Ht Hsnap Hanswer Hplans Htask Hplan Hrun.
  destruct st as [c s b w]. unfold executable in *. cbn [curr store] in *.
  destruct c as [[]| |e0]; [..|done|by destruct (Hrun e0)].
  - rewrite AgentFacts.step_get_env.
    by destruct (Hsnap w) as (env & w' & ->).
  - rewrite AgentFacts.step_plan. unfold plan_prompt.
    rewrite Htask. rewrite bool_decide_eq_false_2 by done.
    split; [done|]. intros _. cbn [store planned_operation set_planned_operation].
    eexists. split; [reflexivity|]. by apply plan_attempts_hashable.
  - destruct Hplan as (op & Hop & Hhash); [done|].
    rewrite (AgentFacts.step_execute s b w op Hop Hhash). cbv zeta.
    split; [done|]. cbn [curr store]. unfold execute_target.
    destruct (AgentFacts.execute_prep_async_keeps s) as (_ & _ & _ & Hp1 & _).
    destruct (AgentFacts.execute_post_async_fields (execute_prep_async s).2 op
                (exec_async_body op b w).1.1 (exec_async_body op b w).2)
      as (_ & _ & _ & _ & _ & _ & _ & Hpl & _).
    destruct (is_error (exec_async_body op b w).1.1); [|done].
    intros _. exists op. by rewrite Hpl, Hp1.
  - rewrite AgentFacts.step_observe. cbv zeta.
    unfold observe_exec_async, observe_prep_async. cbn [fst snd].
    destruct (default [] (operation_history _)) as [|r h]; [by case_bool_decide|].
    destruct (Hanswer (default "" (task (set_iteration (Some (default 0 (iteration s) + 1)) s)))
                (observer_history (r :: h))
                (browser_env (set_iteration (Some (default 0 (iteration s) + 1)) s)) w)
      as (answer & w' & ->).
    by case_bool_decide.
  - by rewrite AgentFacts.step_finish.
Qed.

(** A run for a task that is not empty can only stop with an exception
    when the page snapshot or the completion question raises one, or
    when the planner reads a plan whose action is a list or a mapping:
    if the first two always return and every plan read names its action
    by a value that can be hashed, no state of the run is a crash,
    whatever the planner's model replies and whatever the page does to
    the planned operations. *)
Theorem flow_never_crashes (the_task : string) w (fuel : nat) :
  the_task <> "" -> snapshot_succeeds -> completion_answered -> plans_hashable ->
  forall e, curr (run fuel (initial_state the_task w)) <> Crashed e.
Proof.
  intros Ht Hsnap Hanswer Hplans.
  assert (forall st, well_formed the_task st -> executable st ->
                     (forall e, curr st <> Crashed e) ->
                     forall e, curr (run fuel st) <> Crashed e) as Hrun.
  { induction fuel as [|fuel IH]; intros st Hwf Hexec Hst; [done|].
    destruct (step_keeps_running the_task st Ht Hsnap Hanswer Hplans
                (proj1 Hwf) Hexec Hst) as [Hrunning Hexec'].
    cbn [run]. apply IH; [by apply step_well_formed|done..]. }
  apply Hrun; [apply initial_state_well_formed|done..].
Qed.

(** With an empty task the run stops at the planner: from the second
    turn on it is in a crashed state, the world is the one the snapshot
    left, so no model was asked, and no operation was planned. When the
    snapshot succeeded, the exception is the planner's own. *)
Theorem empty_task_stops_at_planner w (fuel : nat) :
  let st := run (2 + fuel) (initial_state "" w) in
  (exists e, curr st = Crashed e)
  /\ world st = (read_browser_env w).2
  /\ planned_operation (store st) = None
  /\ (is_error <$> operation_result (store st)) = None
  /\ (forall env w', read_browser_env w = (inl env, w') ->
        curr st = Crashed (Exn "Exception" "任务信息缺失，请提供有效的 task")).
Proof.
  intros st. subst st. cbn [Nat.add run]. unfold initial_state.
  rewrite AgentFacts.step_get_env.
  destruct (read_browser_env w) as [[env|e] w'] eqn:Hsnap.
  - rewrite AgentFacts.step_plan. cbn [plan_prompt task initial_shared set_browser_env].
    rewrite bool_decide_eq_true_2 by done.
    rewrite run_stopped by done. cbn.
    repeat split; try done. by eexists.
  - rewrite run_stopped by done. cbn.
    repeat split; try done. by eexists.
Qed.

(** What [run_async] returns at the end of a run tells whether the
    iteration counter stands at thirty, and nothing else: it is
    ["continue"] for every run that ended below the cap, also when the
    observer judged the task complete. *)
Theorem run_async_reports_the_cap (the_task : string) w (fuel : nat) :
  let st := run fuel (initial_state the_task w) in
  run_async_result st
  = if bool_decide (iteration (store st) = Some 30) then "finish" else "continue".
Proof.
  intros st.
  assert (within_cap st) as Hcap.
  { apply AgentFacts.run_within_cap. unfold within_cap, iterations. cbn. lia. }
  apply AgentFacts.within_cap_bound in Hcap. unfold iterations in Hcap.
  unfold run_async_result, BrowserAgent_post_async, cap_reached.
  destruct (iteration (store st)) as [i|]; [|done].
  cbn [default from_option id] in Hcap.
  repeat case_bool_decide; try done; exfalso.
  - assert (i = 30) as -> by lia. done.
  - assert (i = 30) by congruence. lia.
Qed.

(** Of a history of [n] records the planner's prompt carries the last
    [min 5 n], in order; the finish node's summary prompt is built from
    the same list. *)
Theorem prompts_carry_last_five (h : list history_record) :
  safe_data_history h = map to_safe_record (drop (length h - 5) h)
  /\ last_n 5 (map to_safe_record h) = safe_data_history h.
Proof.
  assert (last_n 5 (map to_safe_record h)
          = map to_safe_record (drop (length h - 5) h)) as Hlast.
  { unfold last_n. by rewrite length_map, skipn_map. }
  unfold safe_data_history. cbv zeta. rewrite Hlast, length_map.
  destruct (Nat.ltb_spec 5 (length h)) as [Hlt|Hge]; [done|].
  by replace (length h - 5)%nat with 0%nat by lia.
Qed.

End RunFacts.

Lemma judged_history_is_never_empty_witness :
  curr (@run _ _ Scenario.quiet_world 3 (initial_state "task" 0%nat))
  = Running observe_node
  /\ exists r h,
       operation_history
         (store (@run _ _ Scenario.quiet_world 3 (initial_state "task" 0%nat)))
       = Some (r :: h).
Proof.
  assert (curr (@run _ _ Scenario.quiet_world 3 (initial_state "task" 0%nat))
          = Running observe_node) as Hat by (vm_compute; reflexivity).
  split; [exact Hat|].
  apply (@judged_history_is_never_empty _ _ Scenario.quiet_world "task" 0%nat 3).
  left. exact Hat.
Defined.

(** A world with readable plans: the model's every reply is read as
    the scroll plan. *)
Lemma flow_never_crashes_witness :
  "task" <> ""
  /\ @snapshot_succeeds _ _ Scenario.prompt_log_world
  /\ @completion_answered _ _ Scenario.prompt_log_world
  /\ @plans_hashable _ _ Scenario.prompt_log_world
  /\ forall e, curr (@run _ _ Scenario.prompt_log_world 50 (initial_state "task" []))
               <> Crashed e.
Proof.
  assert (@snapshot_succeeds _ _ Scenario.prompt_log_world) as Hsnap
    by (intros w; by exists tt, w).
  assert (@completion_answered _ _ Scenario.prompt_log_world) as Hanswer
    by (intros task history env w; by eexists "否", _).
  assert (@plans_hashable _ _ Scenario.prompt_log_world) as Hplans
    by (intros reply w op [= <-]; reflexivity).
  repeat apply conj; [done|exact Hsnap|exact Hanswer|exact Hplans|].
  apply (@flow_never_crashes _ _ Scenario.prompt_log_world "task" [] 50);
    [done|exact Hsnap|exact Hanswer|exact Hplans].
Defined.

End FlowMore.
